(** * Verification of the Houston pickup-schedule engine

    A shallow embedding of [src/app/HoustonScheduler.ts] (the current class,
    lines 186-386 of the file, whose [parseData] starts at line 277) and of
    the parts of its collaborators it calls: ECMAScript's calendar of time
    values, [moment]'s getters, setters and weekday parser for the default
    [en] locale, and [lodash]'s [range], [some] and [toPairs].

    Loops that may not stop take a number of iterations allowed ([fuel])
    and return [None] when it does not suffice; a call that throws returns
    [TypeError]. *)

From Stdlib Require Import ZArith Lia List Bool String Ascii Sorted.
From stdpp Require Import gmap strings list.
Import ListNotations.

Local Open Scope string_scope.
Local Open Scope Z_scope.

(** ** JavaScript numbers

    The fields of [PickupDay] hold integers or [NaN] ([parseInt] of a
    non-digit, [day()] of an invalid moment). *)

Module Js.

Inductive number := NaN | Int (z : Z).

(** [a == b] on numbers: [NaN] equals nothing, not even itself. *)
Definition eq (a b : number) : bool :=
  match a, b with
  | Int x, Int y => x =? y
  | _, _ => false
  end.

(** [a < b] on numbers: false when either side is [NaN]. *)
Definition lt (a b : number) : bool :=
  match a, b with
  | Int x, Int y => x <? y
  | _, _ => false
  end.


End Js.

(** ** ECMAScript's calendar (Date objects, on which moment is built)

    A time value is a number of milliseconds since 1970-01-01 on the local
    time line; the engine ignores time zones. *)

Module Ecma.

Definition msPerDay : Z := 86400000.

Definition Day (t : Z) : Z := t / msPerDay.

Definition DaysInYear (y : Z) : Z :=
  if negb (y mod 4 =? 0) then 365
  else if negb (y mod 100 =? 0) then 366
  else if negb (y mod 400 =? 0) then 365
  else 366.

Definition DayFromYear (y : Z) : Z :=
  365 * (y - 1970) + (y - 1969) / 4 - (y - 1901) / 100 + (y - 1601) / 400.

(** [YearFromTime]: the largest [y] with [DayFromYear y <= d]
    ([YearFromDay_spec] below), computed by cycles of 400, 100, 4 and 1
    years counted from 0001-01-01. *)
Definition YearFromDay (d : Z) : Z :=
  let d1 := d + 719162 in
  let n400 := d1 / 146097 in
  let r := d1 mod 146097 in
  let n100 := Z.min 3 (r / 36524) in
  let r1 := r - n100 * 36524 in
  let n4 := r1 / 1461 in
  let r2 := r1 mod 1461 in
  let n1 := Z.min 3 (r2 / 365) in
  1 + 400 * n400 + 100 * n100 + 4 * n4 + n1.

Definition InLeapYear (d : Z) : Z := DaysInYear (YearFromDay d) - 365.

Definition DayWithinYear (d : Z) : Z := d - DayFromYear (YearFromDay d).

(** Number of days of the year before month [m] (0-based), [leap] being 0
    or 1; [monthStart 12] is the length of the year. *)
Definition monthStart (m leap : Z) : Z :=
  if m <=? 0 then 0
  else if m =? 1 then 31
  else if m =? 2 then 59 + leap
  else if m =? 3 then 90 + leap
  else if m =? 4 then 120 + leap
  else if m =? 5 then 151 + leap
  else if m =? 6 then 181 + leap
  else if m =? 7 then 212 + leap
  else if m =? 8 then 243 + leap
  else if m =? 9 then 273 + leap
  else if m =? 10 then 304 + leap
  else if m =? 11 then 334 + leap
  else 365 + leap.

(** [MonthFromTime]: 0 for January ... 11 for December, from the day
    within the year [w] and the leap-year flag [l]. *)
Definition monthOfYearDay (w l : Z) : Z :=
  if w <? 31 then 0
  else if w <? 59 + l then 1
  else if w <? 90 + l then 2
  else if w <? 120 + l then 3
  else if w <? 151 + l then 4
  else if w <? 181 + l then 5
  else if w <? 212 + l then 6
  else if w <? 243 + l then 7
  else if w <? 273 + l then 8
  else if w <? 304 + l then 9
  else if w <? 334 + l then 10
  else 11.

Definition MonthFromDay (d : Z) : Z :=
  monthOfYearDay (DayWithinYear d) (InLeapYear d).

(** [DateFromTime]: the day of the month, from 1. *)
Definition DateFromDay (d : Z) : Z :=
  DayWithinYear d - monthStart (MonthFromDay d) (InLeapYear d) + 1.

(** [WeekDay]: 0 for Sunday ... 6 for Saturday; 1970-01-01 was a Thursday. *)
Definition WeekDay (d : Z) : Z := (d + 4) mod 7.

(** [MakeDay(year, month, date)]: the day number of a civil date; months
    outside 0..11 carry into the year. *)
Definition MakeDay (year month date : Z) : Z :=
  let ym := year + month / 12 in
  let mn := month mod 12 in
  DayFromYear ym + monthStart mn (DaysInYear ym - 365) + date - 1.

Definition DaysInMonth (year month : Z) : Z :=
  let l := DaysInYear year - 365 in
  monthStart (month + 1) l - monthStart month l.

End Ecma.


(** ** JavaScript strings

    Strings are sequences of code units below 256. *)

Module JsString.

Fixpoint startsWith (s p : string) {struct p} : bool :=
  match p, s with
  | EmptyString, _ => true
  | String c p', String d s' => if Ascii.eqb c d then startsWith s' p' else false
  | String _ _, EmptyString => false
  end.

(** [s.indexOf(sub)], counting from [i]: the first position where [sub]
    starts, or -1. *)
Fixpoint indexOfFrom (s sub : string) (i : Z) : Z :=
  if startsWith s sub then i
  else match s with
       | EmptyString => -1
       | String _ s' => indexOfFrom s' sub (i + 1)
       end.

Definition indexOf (s sub : string) : Z := indexOfFrom s sub 0.

(** [s.includes(sub)]. *)
Fixpoint includes (s sub : string) : bool :=
  startsWith s sub ||
  match s with
  | EmptyString => false
  | String _ s' => includes s' sub
  end.

(** [s.substr(start, length)]; a negative [start] counts from the end, an
    absent [length] runs to the end of the string. *)
Definition substr (s : string) (start : Z) (len : option Z) : string :=
  let size := Z.of_nat (String.length s) in
  let from := if start <? 0 then Z.max (size + start) 0 else Z.min start size in
  let n := match len with
           | None => size - from
           | Some l => Z.min (Z.max l 0) (size - from)
           end in
  String.substring (Z.to_nat from) (Z.to_nat n) s.

(** [s.split(sep)] for a separator of one character: the pieces between
    its occurrences, never an empty array. *)
Fixpoint split (s : string) (sep : ascii) : list string :=
  match s with
  | EmptyString => [EmptyString]
  | String c s' =>
      if Ascii.eqb c sep then EmptyString :: split s' sep
      else match split s' sep with
           | piece :: pieces => String c piece :: pieces
           | [] => [String c EmptyString]
           end
  end.

Definition isDigit (c : ascii) : bool :=
  let n := nat_of_ascii c in (48 <=? n)%nat && (n <=? 57)%nat.

Definition digitValue (c : ascii) : Z := Z.of_nat (nat_of_ascii c) - 48.

Definition isWhiteSpace (c : ascii) : bool :=
  let n := nat_of_ascii c in
  (n =? 32)%nat || ((9 <=? n)%nat && (n <=? 13)%nat) || (n =? 160)%nat.

Fixpoint trimStart (s : string) : string :=
  match s with
  | String c s' => if isWhiteSpace c then trimStart s' else s
  | EmptyString => s
  end.

Fixpoint digits (s : string) (acc : option Z) : option Z :=
  match s with
  | String c s' =>
      if isDigit c
      then digits s' (Some (10 * default 0 acc + digitValue c))
      else acc
  | EmptyString => acc
  end.

(** [parseInt(s)] in radix 10: leading white space, an optional sign, then
    the longest run of digits; [NaN] when there is none.  (The engine calls
    it on at most one character, where no [0x] prefix fits.) *)
Definition parseInt (s : string) : Js.number :=
  let s1 := trimStart s in
  let '(sign, s2) :=
    match s1 with
    | String "-" r => (-1, r)
    | String "+" r => (1, r)
    | _ => (1, s1)
    end in
  match digits s2 None with
  | Some n => Js.Int (sign * n)
  | None => Js.NaN
  end.

Definition toLowerCase1 (c : ascii) : ascii :=
  let n := nat_of_ascii c in
  if (65 <=? n)%nat && (n <=? 90)%nat then ascii_of_nat (n + 32) else c.

Fixpoint toLowerCase (s : string) : string :=
  match s with
  | EmptyString => EmptyString
  | String c s' => String (toLowerCase1 c) (toLowerCase s')
  end.

(** The longest prefix of [s] whose characters satisfy [p], and the rest. *)
Fixpoint span (p : ascii -> bool) (s : string) : string * string :=
  match s with
  | String c s' =>
      if p c then let '(a, b) := span p s' in (String c a, b)
      else (EmptyString, s)
  | EmptyString => (EmptyString, EmptyString)
  end.

End JsString.

(** ** The moment library, default locale [en]

    A moment wraps a time value; the getters read the calendar of the day
    holding it.  The source mutates moments in place after [clone()]; the
    model passes values, so [clone] is the identity. *)

Module Moment.
Import Ecma.

Record Moment := mkMoment { valueOf : Z }.

Definition civilDay (m : Moment) : Z := Day (valueOf m).

Definition clone (m : Moment) : Moment := m.

(** [m.day()]: the weekday, 0 for Sunday. *)
Definition day (m : Moment) : Z := WeekDay (civilDay m).

(** [m.month()]: 0 for January. *)
Definition month (m : Moment) : Z := MonthFromDay (civilDay m).

Definition year (m : Moment) : Z := YearFromDay (civilDay m).

Definition date (m : Moment) : Z := DateFromDay (civilDay m).

(** [m.add(n, 'days')]. *)
Definition add_days (n : Z) (m : Moment) : Moment :=
  mkMoment (valueOf m + n * msPerDay).

(** [m.startOf('day')]. *)
Definition startOf_day (m : Moment) : Moment :=
  mkMoment (civilDay m * msPerDay).

(** [m.endOf('day')]. *)
Definition endOf_day (m : Moment) : Moment :=
  mkMoment (civilDay m * msPerDay + msPerDay - 1).

(** [m.startOf('month')]: the date set to 1, the time to midnight. *)
Definition startOf_month (m : Moment) : Moment :=
  mkMoment (MakeDay (year m) (month m) 1 * msPerDay).

(** [a.isSame(b, 'day')]: [b] lies between the start and the end of [a]'s
    day. *)
Definition isSame_day (a b : Moment) : bool :=
  (valueOf (startOf_day a) <=? valueOf b) && (valueOf b <=? valueOf (endOf_day a)).

Definition dayOfYear (m : Moment) : Z :=
  civilDay m - DayFromYear (year m) + 1.

(** Week numbering ([firstWeekOffset], [weeksInYear] and [weekOfYear] of
    moment's week-calendar-utils): [dow] is the first day of the week,
    [doy] fixes the first week of the year ([7 + dow - doy] of January lies
    in week 1). *)
Definition firstWeekOffset (y dow doy : Z) : Z :=
  let fwd := 7 + dow - doy in
  let fwdlw := (7 + WeekDay (MakeDay y 0 fwd) - dow) mod 7 in
  - fwdlw + fwd - 1.

Definition weeksInYear (y dow doy : Z) : Z :=
  let weekOffset := firstWeekOffset y dow doy in
  let weekOffsetNext := firstWeekOffset (y + 1) dow doy in
  (DaysInYear y - weekOffset + weekOffsetNext) / 7.

Definition weekOfYear (m : Moment) (dow doy : Z) : Z :=
  let weekOffset := firstWeekOffset (year m) dow doy in
  let week := (dayOfYear m - weekOffset - 1) / 7 + 1 in
  if week <? 1 then week + weeksInYear (year m - 1) dow doy
  else if week >? weeksInYear (year m) dow doy
       then week - weeksInYear (year m) dow doy
       else week.

(** The [en] locale: weeks start on Sunday, week 1 holds January 1st. *)
Definition en_dow : Z := 0.
Definition en_doy : Z := 6.

(** [m.weeks()]: the locale's week of the year. *)
Definition weeks (m : Moment) : Z := weekOfYear m en_dow en_doy.

(** *** Parsing with the format ['dddd'] (not strict)

    moment's [configFromStringAndFormat] takes the first match in the
    input of the token's regular expression, [matchWord] for ['dddd'] in
    the [en] locale: a run of optional digits followed by letters or
    apostrophes (for code units below 256; runs are taken whole, moment
    bounds them at 256 characters).  The locale's [weekdaysParse] then
    tests that word against [/^Sunday|^Sun|^Su/i], [/^Monday|^Mon|^Mo/i]
    and so on, and the first weekday that matches wins.  What follows the
    word is left unused, which only strict parsing would refuse. *)

Definition isWordChar (c : ascii) : bool :=
  let n := nat_of_ascii c in
  ((97 <=? n)%nat && (n <=? 122)%nat) || ((65 <=? n)%nat && (n <=? 90)%nat)
  || (n =? 39)%nat || (160 <=? n)%nat.

(** [matchWord] anchored at the start of [s]. *)
Definition matchWordHere (s : string) : option string :=
  let '(ds, rest) := JsString.span JsString.isDigit s in
  let '(ws, _) := JsString.span isWordChar rest in
  match ws with
  | EmptyString => None
  | _ => Some (ds +:+ ws)
  end.

(** The leftmost match of [matchWord] in [s]. *)
Fixpoint matchWord (s : string) : option string :=
  match matchWordHere s with
  | Some w => Some w
  | None => match s with
            | EmptyString => None
            | String _ s' => matchWord s'
            end
  end.

Definition weekdays : list string :=
  ["Sunday"; "Monday"; "Tuesday"; "Wednesday"; "Thursday"; "Friday"; "Saturday"].
Definition weekdaysShort : list string :=
  ["Sun"; "Mon"; "Tue"; "Wed"; "Thu"; "Fri"; "Sat"].
Definition weekdaysMin : list string :=
  ["Su"; "Mo"; "Tu"; "We"; "Th"; "Fr"; "Sa"].

(** [/^p/i.test(w)]. *)
Definition testPrefix (p w : string) : bool :=
  JsString.startsWith (JsString.toLowerCase w) (JsString.toLowerCase p).

Definition weekdayRegexTest (i : nat) (w : string) : bool :=
  testPrefix (nth i weekdays "") w || testPrefix (nth i weekdaysShort "") w
  || testPrefix (nth i weekdaysMin "") w.

(** [locale.weekdaysParse(w, 'dddd', false)]. *)
Definition weekdaysParse (w : string) : option Z :=
  Z.of_nat <$> List.find (fun i => weekdayRegexTest i w) (seq 0 7).

(** [moment(s, 'dddd').day()]: the weekday parsed, or [NaN] for the
    invalid moment that results when no word is found or the word starts
    like no weekday. *)
Definition parse_dddd_day (s : string) : Js.number :=
  match matchWord s with
  | None => Js.NaN
  | Some w => match weekdaysParse w with
              | Some i => Js.Int i
              | None => Js.NaN
              end
  end.

End Moment.

(** ** lodash *)

Module Lodash.

(** [_.range(start, end)] ([createRange] and [baseRange] of lodash 4, the
    version that has [toPairs]): without a third argument the step is 1
    when [start < end] and -1 otherwise; the length is
    [max(ceil((end - start) / step), 0)], a division that is exact for
    these two steps. *)
Definition baseRange (start end_ step : Z) : list Z :=
  let len := Z.max ((end_ - start) / step) 0 in
  map (fun i => start + Z.of_nat i * step) (seq 0 (Z.to_nat len)).

Definition range (start end_ : Z) : list Z :=
  let step := if start <? end_ then 1 else -1 in
  baseRange start end_ step.

(** [_.some(collection, predicate)]. *)
Definition some {A} (l : list A) (p : A -> bool) : bool := existsb p l.

(** [_.toPairs(object)]: the object's own properties in insertion order;
    an object literal is modelled by that list. *)
Definition toPairs {A} (o : list (string * A)) : list (string * A) := o.

End Lodash.

(** ** The scheduler ([HoustonScheduler.ts], lines 219-386) *)

Module HoustonScheduler.
Import Moment.

(** The answer of the city's service: [{features: [{attributes: {...}}]}],
    where any level may be missing. *)
Record Feature := mkFeature { attributes : option (gmap string string) }.
Record Data := mkData { features : option (list Feature) }.

Record PickupDay := mkPickupDay {
  wasteDay : Js.number;
  junkWeekOfMonth : Js.number;
  junkDay : Js.number;
  recyclingDay : Js.number;
  recyclingOnEvenWeeks : bool
}.

Record EventInfo := mkEvent {
  day : Moment;
  categories : list string;
  possibleHoliday : bool
}.

(** The fields of the object the methods read: [pickupDays], set by
    [parseData], and [holidays], the table imported from
    [./HoustonHolidays] (not part of the sources at hand, hence a
    parameter of every statement). *)
Record Scheduler := mkScheduler {
  pickupDays : PickupDay;
  holidays : list Moment
}.

(** A call returns or throws a [TypeError]. *)
Inductive completion (A : Type) :=
  | Normal (a : A)
  | TypeError.
Arguments Normal {A} a.
Arguments TypeError {A}.

#[export] Instance completion_bind : MBind completion :=
  fun A B (k : A -> completion B) (c : completion A) =>
    match c with
    | Normal a => k a
    | TypeError => TypeError
    end.

(** [data && data.features && data.features.length &&
    data.features[0].attributes], as a truth value. *)
Definition isValidData (data : option Data) : bool :=
  match data with
  | None => false
  | Some d =>
      match features d with
      | None => false
      | Some [] => false
      | Some (f :: _) =>
          match attributes f with
          | None => false
          | Some _ => true
          end
      end
  end.

(** [data.features[0].attributes[field]] of valid data; [None] is
    [undefined]. *)
Definition attribute (data : option Data) (field : string) : option string :=
  d ← data; fs ← features d; f ← head fs; a ← attributes f; a !! field.

(** [moment(dayStr, 'dddd').day()]; moment reads [undefined] as the string
    it converts to. *)
Definition getDayIndex (dayStr : option string) : Js.number :=
  parse_dddd_day (default "undefined" dayStr).

(** A method call on a value that may be [undefined]. *)
Definition method {A} (v : option string) (f : string -> A) : completion A :=
  match v with
  | Some s => Normal (f s)
  | None => TypeError
  end.

(** [parseData] assigns [this.pickupDays]; the model returns the record
    assigned. *)
Definition parseData (wasteData junkData recyclingData : option Data)
  : completion PickupDay :=
  let wasteDay :=
    if isValidData wasteData
    then getDayIndex (attribute wasteData "DAY")
    else Js.Int (-1) in
  '(junkWeekOfMonth, junkDay) ←
    (if isValidData junkData
     then
       let junkPattern := attribute junkData "SERVICE_DA" in
       first ← method junkPattern (fun s => JsString.substr s 0 (Some 1));
       space ← method junkPattern (fun s => JsString.indexOf s " ");
       rest ← method junkPattern (fun s => JsString.substr s space None);
       Normal (JsString.parseInt first, getDayIndex (Some rest))
     else Normal (Js.Int (-1), Js.Int (-1)));
  '(recyclingDay, recyclingOnEvenWeeks) ←
    (if isValidData recyclingData
     then
       let recyclingSchedule := attribute recyclingData "SERVICE_DAY" in
       pieces ← method recyclingSchedule (fun s => JsString.split s "-");
       hasA ← method recyclingSchedule (fun s => JsString.includes s "-A");
       Normal (getDayIndex (head pieces), negb hasA)
     else Normal (Js.Int (-1), false));
  Normal (mkPickupDay wasteDay junkWeekOfMonth junkDay recyclingDay
            recyclingOnEvenWeeks).

Definition isWasteDay (this : Scheduler) (day : Moment) : bool :=
  Js.eq (Js.Int (Moment.day day)) (wasteDay (pickupDays this)).

(** The [while] loop of [isHeavyDay]; [None] when [fuel] iterations do not
    reach its exit. *)
Fixpoint isHeavyDay_loop (fuel : nat) (this : Scheduler)
    (dayInMonth : Moment) (occurances : Z) : option Moment :=
  if Js.lt (Js.Int occurances) (junkWeekOfMonth (pickupDays this)) then
    match fuel with
    | O => None
    | S fuel' =>
        let occurances' :=
          if Js.eq (Js.Int (Moment.day dayInMonth)) (junkDay (pickupDays this))
          then occurances + 1 else occurances in
        isHeavyDay_loop fuel' this (add_days 1 dayInMonth) occurances'
    end
  else Some dayInMonth.

Definition isHeavyDay (fuel : nat) (this : Scheduler) (day : Moment)
  : option bool :=
  dayInMonth ← isHeavyDay_loop fuel this (startOf_month (clone day)) 0;
  Some (isSame_day (add_days (-1) dayInMonth) day).

Definition isEvenMonth (day : Moment) : bool :=
  (month day + 1) mod 2 =? 0.

(** [!this.isEvenMonth(day) && this.isHeavyDay(day)]: the loop is not
    entered when the left operand is false. *)
Definition isTreeDay (fuel : nat) (this : Scheduler) (day : Moment)
  : option bool :=
  if negb (isEvenMonth day) then isHeavyDay fuel this day else Some false.

Definition isJunkDay (fuel : nat) (this : Scheduler) (day : Moment)
  : option bool :=
  if isEvenMonth day then isHeavyDay fuel this day else Some false.

Definition isRecyclingDay (this : Scheduler) (day : Moment) : bool :=
  let isEvenWeek := weeks day mod 2 =? 0 in
  let isThisWeek :=
    (recyclingOnEvenWeeks (pickupDays this) && isEvenWeek)
    || (negb (recyclingOnEvenWeeks (pickupDays this)) && negb isEvenWeek) in
  isThisWeek && Js.eq (Js.Int (Moment.day day)) (recyclingDay (pickupDays this)).

Definition isPossibleHoliday (this : Scheduler) (day : Moment) : bool :=
  Lodash.some (holidays this) (fun d => isSame_day d day).

Definition getCategoriesForDay (fuel : nat) (this : Scheduler) (day : Moment)
  : option (list string) :=
  let waste := isWasteDay this day in
  junk ← isJunkDay fuel this day;
  tree ← isTreeDay fuel this day;
  let recycling := isRecyclingDay this day in
  let eventsForDay :=
    [("waste", waste); ("junk", junk); ("tree", tree); ("recycling", recycling)] in
  Some (map fst (List.filter (fun category => snd category)
                   (Lodash.toPairs eventsForDay))).

Definition groupEvents (fuel : nat) (this : Scheduler) (day : Moment)
  : option EventInfo :=
  cats ← getCategoriesForDay fuel this day;
  Some (mkEvent day cats (isPossibleHoliday this day)).

(** [array.map(f)] for an [f] that may not return. *)
Fixpoint mapOpt {A B} (f : A -> option B) (l : list A) : option (list B) :=
  match l with
  | [] => Some []
  | x :: l' => y ← f x; ys ← mapOpt f l'; Some (y :: ys)
  end.

(** The value of [numberOfDays] when the argument is absent. *)
Definition defaultNumberOfDays : Z := 60.

(** [getUpcomingEvents(numberOfDays)], run once [whenLoaded] has resolved,
    that is after [parseData]; [now] is the clock read by [moment()]. *)
Definition getUpcomingEvents (fuel : nat) (this : Scheduler) (now : Moment)
    (numberOfDays : Z) : option (list EventInfo) :=
  let day := startOf_day now in
  events ← mapOpt (groupEvents fuel this)
             (map (fun i => add_days i (clone day)) (Lodash.range 0 numberOfDays));
  Some (List.filter (fun event => negb (length (categories event) =? 0)%nat)
          events).

End HoustonScheduler.

(** * The vocabulary of the specification *)

(** ** Months and occurrences *)

Module Calendar.
Import Ecma Moment.

(** [n] consecutive day numbers from [s]. *)
Fixpoint daysFrom (s : Z) (n : nat) : list Z :=
  match n with
  | O => []
  | S n' => s :: daysFrom (s + 1) n'
  end.

(** The days of month [m] (0-based) of year [y], in order. *)
Definition monthDates (y m : Z) : list Z :=
  daysFrom (MakeDay y m 1) (Z.to_nat (DaysInMonth y m)).

(** The days of [d]'s calendar month that fall on weekday [wd], in order. *)
Definition occurrences (wd : Z) (d : Moment) : list Z :=
  List.filter (fun x => WeekDay x =? wd) (monthDates (year d) (month d)).

(** [d] is the [N]-th occurrence of weekday [wd] within its month. *)
Definition isNthOccurrence (wd N : Z) (d : Moment) : Prop :=
  1 <= N /\ nth_error (occurrences wd d) (Z.to_nat (N - 1)) = Some (civilDay d).


(** The [k]-th day on weekday [wd] counted from day [s] on. *)
Definition nthFrom (s wd k : Z) : Z := s + (wd - WeekDay s) mod 7 + 7 * (k - 1).

End Calendar.

(** ** The vocabulary of the statements *)

Module Spec.
Import Moment HoustonScheduler.

(** The rule sets on which the heavy-pickup loop stops: no positive
    ordinal, or a weekday between 0 and 6. *)
Definition loopReturns (p : PickupDay) : bool :=
  negb (Js.lt (Js.Int 0) (junkWeekOfMonth p))
  || match junkDay p with
     | Js.Int wd => (0 <=? wd) && (wd <=? 6)
     | Js.NaN => false
     end.

(** A number of iterations that suffices on those rule sets. *)
Definition enoughFuel (p : PickupDay) : nat :=
  match junkWeekOfMonth p with
  | Js.Int N => Z.to_nat (7 * N)
  | Js.NaN => O
  end.

(** The dates [getUpcomingEvents] classifies. *)
Definition windowDays (now : Moment) (numberOfDays : Z) : list Moment :=
  map (fun i => add_days i (clone (startOf_day now))) (Lodash.range 0 numberOfDays).

Definition hasCategories (event : EventInfo) : bool :=
  negb (length (categories event) =? 0)%nat.

(** One event lies on an earlier calendar day than another. *)
Definition earlier (a b : EventInfo) : Prop := civilDay (day a) < civilDay (day b).

(** The order in which [getCategoriesForDay] writes the tags. *)
Definition tagOrder : list string := ["waste"; "junk"; "tree"; "recycling"].


(** The Sunday that opens week 1 of year [y] in the [en] locale. *)
Definition weekOneStart (y : Z) : Z :=
  Ecma.DayFromYear y - Ecma.WeekDay (Ecma.DayFromYear y).

(** Every character of [s] satisfies [p]. *)
Fixpoint all (p : ascii -> bool) (s : string) : bool :=
  match s with
  | EmptyString => true
  | String c s' => p c && all p s'
  end.

Definition isAlpha (c : ascii) : bool :=
  let n := nat_of_ascii c in
  ((97 <=? n)%nat && (n <=? 122)%nat) || ((65 <=? n)%nat && (n <=? 90)%nat).

Definition noDash (s : string) : bool :=
  all (fun c => negb (Ascii.eqb c "-")) s.






End Spec.

(** ** A running example

    The rule set of the specification's end-to-end example: waste on
    Wednesdays, heavy pickup on the second Monday, recycling on the Fridays
    of even weeks; the clock reads 2024-01-01, 10:00. *)

Module Example.
Import Moment HoustonScheduler.

Definition at_ (y m d hours : Z) : Moment :=
  mkMoment (Ecma.MakeDay y m d * Ecma.msPerDay + hours * 3600000).

Definition response (field value : string) : option Data :=
  Some (mkData (Some [mkFeature (Some {[ field := value ]})])).

Definition rules : PickupDay :=
  mkPickupDay (Js.Int 3) (Js.Int 2) (Js.Int 1) (Js.Int 5) true.

Definition scheduler : Scheduler :=
  mkScheduler rules [at_ 2024 0 1 0; at_ 2024 0 10 12].

Definition now : Moment := at_ 2024 0 1 10.

Definition events : list EventInfo :=
  [ mkEvent (at_ 2024 0 3 0) ["waste"] false;
    mkEvent (at_ 2024 0 8 0) ["tree"] false;
    mkEvent (at_ 2024 0 10 0) ["waste"] true;
    mkEvent (at_ 2024 0 12 0) ["recycling"] false ].

(** A heavy-pickup record with an ordinal and a word that is no weekday. *)
Definition strayWeekday : option Data := response "SERVICE_DA" "3 Foo".

(** Waste on Mondays and nothing else. *)
Definition mondayWaste : Scheduler :=
  mkScheduler (mkPickupDay (Js.Int 1) (Js.Int (-1)) (Js.Int (-1)) (Js.Int (-1)) false) [].

(** An ordinal with the weekday left at the unset mark. *)
Definition weekdayUnset : Scheduler :=
  mkScheduler (mkPickupDay (Js.Int (-1)) (Js.Int 3) (Js.Int (-1)) (Js.Int (-1)) false) [].

(** What [parseData] stores for the recycling record [FRIDAY-A] alone. *)
Definition fridayA : PickupDay :=
  mkPickupDay (Js.Int (-1)) (Js.Int (-1)) (Js.Int (-1)) (Js.Int 5) false.

End Example.

(** * More of the code: formatting, requests and the route *)

(** ** Formatting a day ([event.day.format("YYYY-MM-DD")] in [App.ts]) *)

Module MomentFormat.
Import Ecma Moment.

Definition digitChar (d : Z) : ascii := ascii_of_nat (48 + Z.to_nat d).

(** The decimal digits of [n >= 0] put before [acc]; [fuel] bounds the
    number of digits after the first. *)
Fixpoint decimalOnto (fuel : nat) (n : Z) (acc : string) : string :=
  let acc' := String (digitChar (n mod 10)) acc in
  match fuel with
  | O => acc'
  | S fuel' => if n <? 10 then acc' else decimalOnto fuel' (n / 10) acc'
  end.

(** ['' + n] for an integer [n >= 0]: it has no more decimal digits than
    binary ones. *)
Definition decimal (n : Z) : string := decimalOnto (Z.to_nat (Z.log2 n)) n "".

(** [Math.pow(10, k).toString().substr(1)]: [k] zeros. *)
Fixpoint zeros (k : nat) : string :=
  match k with
  | O => ""
  | S k' => String "0" (zeros k')
  end.

(** moment's [zeroFill(number, targetLength)] (no forced sign). *)
Definition zeroFill (number : Z) (targetLength : nat) : string :=
  let absNumber := decimal (Z.abs number) in
  let zerosToFill := (targetLength - String.length absNumber)%nat in
  (if 0 <=? number then "" else "-") ++ zeros zerosToFill ++ absNumber.

(** [m.format("YYYY-MM-DD")] of a valid moment: the tokens [YYYY], [MM]
    and [DD] are the year, the month from 1 and the date, filled to 4, 2
    and 2 digits. *)
Definition format_YYYY_MM_DD (m : Moment) : string :=
  zeroFill (year m) 4 ++ "-" ++ zeroFill (month m + 1) 2 ++ "-"
  ++ zeroFill (date m) 2.

End MomentFormat.

(** ** Percent-encoding ([encodeURIComponent]), for code units below 256 *)

Module Uri.

Definition isAlphaNum (c : ascii) : bool :=
  let n := nat_of_ascii c in
  ((48 <=? n)%nat && (n <=? 57)%nat) || ((65 <=? n)%nat && (n <=? 90)%nat)
  || ((97 <=? n)%nat && (n <=? 122)%nat).

(** The characters left as they are: letters, digits and [-_.!~*'()]. *)
Definition isUnreserved (c : ascii) : bool :=
  isAlphaNum c || existsb (Ascii.eqb c) (list_ascii_of_string "-_.!~*'()").

Definition hexDigit (n : nat) : ascii :=
  if (n <? 10)%nat then ascii_of_nat (48 + n) else ascii_of_nat (55 + n).

(** [%XX] for one byte. *)
Definition percent (byte : nat) : string :=
  String "%" (String (hexDigit (byte / 16)) (String (hexDigit (byte mod 16)) "")).

(** A code unit below 128 is one byte of UTF-8, one from 128 to 255 is
    two. *)
Definition encodeUnit (c : ascii) : string :=
  let n := nat_of_ascii c in
  if isUnreserved c then String c ""
  else if (n <? 128)%nat then percent n
  else percent (192 + n / 64) ++ percent (128 + n mod 64).

Fixpoint encodeURIComponent (s : string) : string :=
  match s with
  | EmptyString => EmptyString
  | String c s' => encodeUnit c ++ encodeURIComponent s'
  end.

End Uri.

(** ** The requests of the constructor ([HoustonScheduler.ts], lines
    227-261)

    [geometry] is the text [JSON.stringify(esriPos)] of the position. *)

Module Requests.

(** waste (6), junk (5) and recycling (4) *)
Definition mapNumbers : list Z := [6; 5; 4].

Definition mapServer : string :=
  "http://mycity.houstontx.gov/cohgis/rest/services/SWD/SolidWaste_wm/MapServer/".

Definition scheduleFieldPerMap : list (Z * string) :=
  [(6, "DAY"); (5, "SERVICE_DA"); (4, "SERVICE_DAY")].

(** [object[key]] in a template literal, where a missing key shows as
    [undefined]. *)
Definition property (o : list (Z * string)) (key : Z) : string :=
  match List.find (fun kv => fst kv =? key) o with
  | Some kv => snd kv
  | None => "undefined"
  end.

Definition params (geometry : string) : list (string * string) :=
  [("geometry", geometry);
   ("geometryType", "esriGeometryPoint");
   ("spatialRel", "esriSpatialRelIntersects");
   ("returnGeometry", "false");
   ("outSR", "102100");
   ("f", "json")].

(** [Object.keys(params).reduce(..., '?')]. *)
Definition paramStr (geometry : string) : string :=
  fold_left
    (fun paramStr kv =>
       paramStr ++ "&" ++ fst kv ++ "=" ++ Uri.encodeURIComponent (snd kv))
    (params geometry) "?".

(** The three addresses requested, in the order of [mapNumbers]. *)
Definition urls (geometry : string) : list string :=
  map (fun map_ =>
         mapServer ++ MomentFormat.decimal map_ ++ "/query" ++ paramStr geometry
         ++ "&outFields=" ++ property scheduleFieldPerMap map_)
      mapNumbers.

End Requests.

(** ** The route [/upcoming] ([App.ts], lines 32-52) *)

Module App.
Import Moment HoustonScheduler.

(** An event once [day] is replaced by its formatted text. *)
Record JsonEvent := mkJsonEvent {
  jsonDay : string;
  jsonCategories : list string;
  jsonPossibleHoliday : bool
}.

(** [events.map(event => Object.assign(event, {day: event.day.format("YYYY-MM-DD")}))]. *)
Definition jsonEvents (events : list EventInfo) : list JsonEvent :=
  map (fun event =>
         mkJsonEvent (MomentFormat.format_YYYY_MM_DD (day event))
           (categories event) (possibleHoliday event))
      events.

(** What the handler replies: the object it serialises, or Boom's
    gateway-timeout error. *)
Inductive Reply :=
  | Body (events : list JsonEvent) (schedule : PickupDay)
  | GatewayTimeout.

(** The handler, from the answers to the three requests ([None] when one
    of them fails, so that [whenLoaded] rejects) to the reply; a
    [TypeError] thrown by [parseData] rejects [whenLoaded] as well.
    [numberOfDays] is the number [_.range] reads in
    [request.query.days || 60]. *)
Definition upcoming (fuel : nat) (holidays : list Moment) (now : Moment)
    (answers : option (option Data * option Data * option Data))
    (numberOfDays : Z) : option Reply :=
  match answers with
  | None => Some GatewayTimeout
  | Some (wasteData, junkData, recyclingData) =>
      match parseData wasteData junkData recyclingData with
      | TypeError => Some GatewayTimeout
      | Normal pickupDays =>
          events ← getUpcomingEvents fuel (mkScheduler pickupDays holidays)
                     now numberOfDays;
          Some (Body (jsonEvents events) pickupDays)
      end
  end.

End App.

(** ** The vocabulary of the further properties *)

Module Vocabulary.

(** The weight of the digits [decimalOnto] writes. *)
Fixpoint scale (fuel : nat) (n : Z) : Z :=
  match fuel with
  | O => 10
  | S fuel' => if n <? 10 then 10 else 10 * scale fuel' (n / 10)
  end.

(** How often the character [c] occurs in [s]. *)
Fixpoint count (c : ascii) (s : string) : nat :=
  match s with
  | EmptyString => O
  | String c' s' => ((if Ascii.eqb c c' then 1 else 0) + count c s')%nat
  end.

Definition notSpace (c : ascii) : bool := negb (Ascii.eqb c " ").

(** An answer of the service whose first feature has the attributes [a]. *)
Definition record (a : gmap string string) (others : list HoustonScheduler.Feature)
  : option HoustonScheduler.Data :=
  Some (HoustonScheduler.mkData
          (Some (HoustonScheduler.mkFeature (Some a) :: others))).

(** What [parseData] stores when no record is valid. *)
Definition noSchedule : HoustonScheduler.PickupDay :=
  HoustonScheduler.mkPickupDay (Js.Int (-1)) (Js.Int (-1)) (Js.Int (-1))
    (Js.Int (-1)) false.

(** The event carries the category [tag]. *)
Definition hasTag (tag : string) (event : HoustonScheduler.EventInfo) : bool :=
  existsb (String.eqb tag) (HoustonScheduler.categories event).

(** An event with its holiday flag read from the table of [this]. *)
Definition flagged (this : HoustonScheduler.Scheduler)
    (event : HoustonScheduler.EventInfo) : HoustonScheduler.EventInfo :=
  HoustonScheduler.mkEvent (HoustonScheduler.day event)
    (HoustonScheduler.categories event)
    (HoustonScheduler.isPossibleHoliday this (HoustonScheduler.day event)).

(** [JSON.stringify] of a string that needs no escape. *)
Definition quoted (s : string) : string :=
  String (ascii_of_nat 34) (s ++ String (ascii_of_nat 34) "").

(** The position of the example calls in the comment of the class
    ([HoustonScheduler.ts], lines 210-217). *)
Definition exampleGeometry : string :=
  "{" ++ quoted "y" ++ ":" ++ quoted "29.7982722" ++ ","
  ++ quoted "x" ++ ":" ++ quoted "-95.3736702" ++ ","
  ++ quoted "spatialReference" ++ ":{" ++ quoted "wkid" ++ ":4326}}".

(** The characters [encodeURIComponent] writes: the unreserved ones and
    the percent sign. *)
Definition isUriSafe (c : ascii) : bool := Uri.isUnreserved c || Ascii.eqb c "%".

End Vocabulary.

(** * Properties *)

(** Linear arithmetic with division and remainder by constants. *)
Ltac zdiv := Z.to_euclidean_division_equations; lia.

Module JsFacts.

Lemma eq_Int_true a z : Js.eq (Js.Int z) a = true <-> a = Js.Int z.
Proof.
  destruct a as [|y]; simpl; split; try discriminate.
  - intros H. apply Z.eqb_eq in H. now subst.
  - intros [= ->]. apply Z.eqb_refl.
Qed.


End JsFacts.

(** ** The calendar *)

Module EcmaFacts.
Import Ecma.

Example day_2024_01_01 : MakeDay 2024 0 1 = 19723.
Proof. reflexivity. Qed.

Example civil_19723 :
  (YearFromDay 19723, MonthFromDay 19723, DateFromDay 19723, WeekDay 19723)
  = (2024, 0, 1, 1).
Proof. reflexivity. Qed.

Example civil_leap_day :
  (YearFromDay (MakeDay 2016 1 29), MonthFromDay (MakeDay 2016 1 29),
   DateFromDay (MakeDay 2016 1 29), WeekDay (MakeDay 2016 1 29))
  = (2016, 1, 29, 1).
Proof. reflexivity. Qed.

Example civil_before_epoch :
  (YearFromDay (-1), MonthFromDay (-1), DateFromDay (-1), WeekDay (-1))
  = (1969, 11, 31, 3).
Proof. reflexivity. Qed.

Lemma DaysInYear_cases y : DaysInYear y = 365 \/ DaysInYear y = 366.
Proof.
  unfold DaysInYear.
  destruct (y mod 4 =? 0), (y mod 100 =? 0), (y mod 400 =? 0); simpl; auto.
Qed.

Lemma DayFromYear_succ y : DayFromYear (y + 1) = DayFromYear y + DaysInYear y.
Proof.
  unfold DayFromYear, DaysInYear.
  destruct (y mod 4 =? 0) eqn:E4, (y mod 100 =? 0) eqn:E100,
    (y mod 400 =? 0) eqn:E400; cbn [negb];
    rewrite ?Z.eqb_eq, ?Z.eqb_neq in *; Z.to_euclidean_division_equations; lia.
Qed.

Lemma YearFromDay_spec d :
  DayFromYear (YearFromDay d) <= d < DayFromYear (YearFromDay d + 1).
Proof.
  rewrite DayFromYear_succ.
  unfold YearFromDay, DayFromYear, DaysInYear.
  set (d1 := d + 719162).
  assert (Hd : d = d1 - 719162) by (unfold d1; lia).
  clearbody d1. subst d.
  set (n400 := d1 / 146097). set (r := d1 mod 146097).
  assert (Hr : 0 <= r < 146097) by (apply Z.mod_pos_bound; lia).
  assert (Hd1 : d1 = 146097 * n400 + r) by (apply Z.div_mod; lia).
  clearbody n400 r. subst d1.
  set (n100 := Z.min 3 (r / 36524)).
  assert (Hn100 : 0 <= n100 <= 3 /\ 36524 * n100 <= r /\
                  (n100 < 3 -> r < 36524 * (n100 + 1))) by (unfold n100; zdiv).
  clearbody n100.
  set (r1 := r - n100 * 36524).
  assert (Hr1 : r = r1 + n100 * 36524) by (unfold r1; lia).
  clearbody r1. subst r.
  set (n4 := r1 / 1461). set (r2 := r1 mod 1461).
  assert (Hr2 : 0 <= r2 < 1461) by (apply Z.mod_pos_bound; lia).
  assert (Hr1' : r1 = 1461 * n4 + r2) by (apply Z.div_mod; lia).
  clearbody n4 r2. subst r1.
  set (n1 := Z.min 3 (r2 / 365)).
  assert (Hn1 : 0 <= n1 <= 3 /\ 365 * n1 <= r2 /\
                (n1 < 3 -> r2 < 365 * (n1 + 1))) by (unfold n1; zdiv).
  clearbody n1.
  assert (Hn4 : 0 <= n4 <= 24) by lia.
  set (y := 1 + 400 * n400 + 100 * n100 + 4 * n4 + n1).
  assert (H4 : (y - 1969) / 4 = 100 * n400 + 25 * n100 + n4 - 492) by (unfold y; zdiv).
  assert (H100 : (y - 1901) / 100 = 4 * n400 + n100 - 19) by (unfold y; zdiv).
  assert (H400 : (y - 1601) / 400 = n400 - 4) by (unfold y; zdiv).
  rewrite H4, H100, H400.
  assert (M4 : y mod 4 = (1 + n1) mod 4) by (unfold y; zdiv).
  assert (M100 : y mod 100 = (1 + 4 * n4 + n1) mod 100) by (unfold y; zdiv).
  assert (M400 : y mod 400 = (1 + 100 * n100 + 4 * n4 + n1) mod 400) by (unfold y; zdiv).
  rewrite M4, M100, M400. unfold y. clear H4 H100 H400 M4 M100 M400 y.
  destruct ((1 + n1) mod 4 =? 0) eqn:E4,
    ((1 + 4 * n4 + n1) mod 100 =? 0) eqn:E100,
    ((1 + 100 * n100 + 4 * n4 + n1) mod 400 =? 0) eqn:E400; cbn [negb];
    rewrite ?Z.eqb_eq, ?Z.eqb_neq in *; zdiv.
Qed.

Lemma DayFromYear_mono y1 y2 : y1 <= y2 -> DayFromYear y1 <= DayFromYear y2.
Proof. unfold DayFromYear. intros H. zdiv. Qed.

Lemma YearFromDay_unique d y :
  DayFromYear y <= d < DayFromYear (y + 1) -> YearFromDay d = y.
Proof.
  intros [Hlo Hhi]. destruct (YearFromDay_spec d) as [Hlo' Hhi'].
  destruct (Z.lt_trichotomy (YearFromDay d) y) as [Hlt | [Heq | Hgt]]; [|exact Heq|].
  - pose proof (DayFromYear_mono (YearFromDay d + 1) y ltac:(lia)). lia.
  - pose proof (DayFromYear_mono (y + 1) (YearFromDay d) ltac:(lia)). lia.
Qed.

Lemma DayWithinYear_range d :
  0 <= DayWithinYear d < DaysInYear (YearFromDay d).
Proof.
  unfold DayWithinYear. pose proof (YearFromDay_spec d) as H.
  rewrite DayFromYear_succ in H. lia.
Qed.

Lemma InLeapYear_cases d : InLeapYear d = 0 \/ InLeapYear d = 1.
Proof. unfold InLeapYear. destruct (DaysInYear_cases (YearFromDay d)); lia. Qed.

Ltac bool_to_Z :=
  rewrite ?Z.ltb_lt, ?Z.ltb_ge, ?Z.leb_le, ?Z.leb_gt, ?Z.eqb_eq, ?Z.eqb_neq in *.

(** Evaluates [monthStart] at a month that is a closed term. *)
Ltac month_table :=
  repeat match goal with
    | |- context [monthStart ?m ?l] =>
        let m' := eval vm_compute in m in
        let t := eval cbv beta iota delta
                   [monthStart Z.leb Z.eqb Z.compare Pos.compare
                    Pos.compare_cont Pos.eqb] in (monthStart m' l) in
        change (monthStart m l) with t
    end.

Lemma monthOfYearDay_bounds w l :
  0 <= l <= 1 -> 0 <= w < 365 + l ->
  0 <= monthOfYearDay w l <= 11 /\
  monthStart (monthOfYearDay w l) l <= w
    < monthStart (monthOfYearDay w l + 1) l.
Proof.
  intros Hl Hw. unfold monthOfYearDay.
  repeat match goal with
    | |- context [if ?b then _ else _] =>
        let E := fresh "E" in destruct b eqn:E
    end; month_table; bool_to_Z; lia.
Qed.

Lemma monthOfYearDay_unique w l m :
  0 <= l <= 1 -> 0 <= m <= 11 ->
  monthStart m l <= w < monthStart (m + 1) l ->
  monthOfYearDay w l = m.
Proof.
  intros Hl Hm.
  assert (Hc : m = 0 \/ m = 1 \/ m = 2 \/ m = 3 \/ m = 4 \/ m = 5 \/ m = 6 \/
               m = 7 \/ m = 8 \/ m = 9 \/ m = 10 \/ m = 11) by lia.
  clear Hm. unfold monthOfYearDay.
  repeat destruct Hc as [-> | Hc]; try subst m; month_table; intros Hw;
    repeat match goal with
      | |- context [if ?b then _ else _] =>
          let E := fresh "E" in destruct b eqn:E
      end; bool_to_Z; lia.
Qed.

Lemma monthStart_mono m l : 0 <= l <= 1 -> 0 <= m <= 11 ->
  0 <= monthStart m l /\ 28 <= monthStart (m + 1) l - monthStart m l <= 31 /\
  monthStart (m + 1) l <= 365 + l.
Proof.
  intros Hl Hm.
  assert (Hc : m = 0 \/ m = 1 \/ m = 2 \/ m = 3 \/ m = 4 \/ m = 5 \/ m = 6 \/
               m = 7 \/ m = 8 \/ m = 9 \/ m = 10 \/ m = 11) by lia.
  clear Hm. repeat destruct Hc as [-> | Hc]; try subst m; month_table; lia.
Qed.

Lemma MonthFromDay_range d : 0 <= MonthFromDay d <= 11.
Proof.
  unfold MonthFromDay.
  apply monthOfYearDay_bounds; [pose proof (InLeapYear_cases d); lia|].
  pose proof (DayWithinYear_range d). unfold InLeapYear. lia.
Qed.

Lemma DateFromDay_range d :
  1 <= DateFromDay d <= DaysInMonth (YearFromDay d) (MonthFromDay d).
Proof.
  unfold DateFromDay, DaysInMonth, MonthFromDay. fold (InLeapYear d).
  destruct (monthOfYearDay_bounds (DayWithinYear d) (InLeapYear d)) as [_ H].
  - pose proof (InLeapYear_cases d); lia.
  - pose proof (DayWithinYear_range d). unfold InLeapYear. lia.
  - lia.
Qed.

(** The civil fields of a day number name that day. *)
Lemma MakeDay_fields d :
  MakeDay (YearFromDay d) (MonthFromDay d) (DateFromDay d) = d.
Proof.
  pose proof (MonthFromDay_range d) as Hm.
  unfold MakeDay.
  replace (MonthFromDay d / 12) with 0 by zdiv.
  replace (MonthFromDay d mod 12) with (MonthFromDay d) by zdiv.
  rewrite Z.add_0_r. fold (InLeapYear d).
  unfold DateFromDay, DayWithinYear. lia.
Qed.

(** A valid civil date is recovered from its day number. *)
Lemma fields_MakeDay y m dt :
  0 <= m <= 11 -> 1 <= dt <= DaysInMonth y m ->
  YearFromDay (MakeDay y m dt) = y /\
  MonthFromDay (MakeDay y m dt) = m /\
  DateFromDay (MakeDay y m dt) = dt.
Proof.
  intros Hm Hdt. unfold MakeDay.
  replace (m / 12) with 0 by zdiv.
  replace (m mod 12) with m by zdiv.
  rewrite Z.add_0_r.
  set (l := DaysInYear y - 365) in *.
  assert (Hl : 0 <= l <= 1) by (unfold l; destruct (DaysInYear_cases y); lia).
  unfold DaysInMonth in Hdt. fold l in Hdt.
  destruct (monthStart_mono m l Hl Hm) as (H0 & _ & Hend).
  set (d := DayFromYear y + monthStart m l + dt - 1).
  assert (Hy : YearFromDay d = y).
  { apply YearFromDay_unique. rewrite DayFromYear_succ. unfold d. lia. }
  assert (Hmonth : MonthFromDay d = m).
  { unfold MonthFromDay, InLeapYear, DayWithinYear. rewrite Hy. fold l.
    apply monthOfYearDay_unique; [exact Hl | exact Hm |]. unfold d. lia. }
  repeat split; [exact Hy | exact Hmonth |].
  unfold DateFromDay. rewrite Hmonth.
  unfold InLeapYear, DayWithinYear. rewrite Hy. fold l. unfold d. lia.
Qed.

Lemma MakeDay_date y m dt : MakeDay y m dt = MakeDay y m 1 + (dt - 1).
Proof.
  unfold MakeDay.
  generalize (DayFromYear (y + m / 12)),
    (monthStart (m mod 12) (DaysInYear (y + m / 12) - 365)).
  intros a b. lia.
Qed.

Lemma WeekDay_range d : 0 <= WeekDay d <= 6.
Proof. unfold WeekDay. zdiv. Qed.

Lemma WeekDay_succ d :
  WeekDay (d + 1) = if WeekDay d =? 6 then 0 else WeekDay d + 1.
Proof.
  unfold WeekDay. destruct ((d + 4) mod 7 =? 6) eqn:E; bool_to_Z; zdiv.
Qed.

End EcmaFacts.

(** ** Moments and calendar days *)

Module MomentFacts.
Import Ecma EcmaFacts Moment.

Lemma civilDay_add_days n m : civilDay (add_days n m) = civilDay m + n.
Proof.
  unfold civilDay, add_days, Day, msPerDay. simpl.
  rewrite Z.div_add by lia. reflexivity.
Qed.

Lemma add_days_add_days a b m : add_days a (add_days b m) = add_days (a + b) m.
Proof. unfold add_days. simpl. f_equal. lia. Qed.

Lemma day_add_days n m : day (add_days n m) = WeekDay (civilDay m + n).
Proof. unfold day. now rewrite civilDay_add_days. Qed.

Lemma civilDay_startOf_day m : civilDay (startOf_day m) = civilDay m.
Proof.
  unfold civilDay at 1. unfold startOf_day, Day, msPerDay. simpl.
  apply Z.div_mul. lia.
Qed.

Lemma civilDay_startOf_month m :
  civilDay (startOf_month m) = MakeDay (year m) (month m) 1.
Proof.
  unfold civilDay at 1. unfold startOf_month, Day, msPerDay. simpl.
  apply Z.div_mul. lia.
Qed.

(** The first of the month lies [date - 1] days before the day. *)
Lemma civilDay_startOf_month_date m :
  civilDay (startOf_month m) = civilDay m - (date m - 1).
Proof.
  rewrite civilDay_startOf_month.
  pose proof (MakeDay_fields (civilDay m)) as H.
  rewrite MakeDay_date in H. unfold year, month, date. lia.
Qed.

(** [isSame(_, 'day')] compares calendar days and ignores the time. *)
Lemma isSame_day_civilDay a b : isSame_day a b = (civilDay a =? civilDay b).
Proof.
  unfold isSame_day, startOf_day, endOf_day, civilDay, Day, msPerDay. simpl.
  destruct (valueOf a / 86400000 =? valueOf b / 86400000) eqn:E; bool_to_Z.
  - apply andb_true_iff. bool_to_Z. zdiv.
  - apply andb_false_iff. bool_to_Z. zdiv.
Qed.

Lemma day_range m : 0 <= day m <= 6.
Proof. apply WeekDay_range. Qed.

End MomentFacts.

Module ExampleFacts.
Import Moment HoustonScheduler Example.

Example parse_example :
  parseData (response "DAY" "WEDNESDAY") (response "SERVICE_DA" "2nd MONDAY")
    (response "SERVICE_DAY" "FRIDAY-B") = Normal rules.
Proof. vm_compute. reflexivity. Qed.

Example two_weeks : getUpcomingEvents 14 scheduler now 14 = Some events.
Proof. vm_compute. reflexivity. Qed.


(** Weekdays and week numbers of some known dates: a leap day, the first
    of March of a year that is no leap year, and the turns of 2016, 2020
    and 2022 (2016 and 2022 have 53 weeks). *)
Example known_weekdays :
  map Moment.day [at_ 2000 1 29 0; at_ 1900 2 1 0; at_ 1970 0 1 0; at_ 2038 0 19 0]
  = [2; 4; 4; 2].
Proof. vm_compute. reflexivity. Qed.

Example known_weeks :
  map weeks [at_ 2016 11 30 0; at_ 2017 0 1 0; at_ 2020 11 26 0; at_ 2020 11 27 0;
             at_ 2022 11 31 0; at_ 2023 0 1 0; at_ 2024 0 5 0; at_ 2024 0 12 0]
  = [53; 1; 52; 1; 53; 1; 1; 2].
Proof. vm_compute. reflexivity. Qed.

Example known_ranges :
  (Lodash.range 0 4, Lodash.range 0 (-4), Lodash.range 0 0)
  = ([0; 1; 2; 3], [0; -1; -2; -3], []).
Proof. reflexivity. Qed.

Example known_weekday_strings :
  map (fun s => getDayIndex (Some s))
    ["MONDAY"; "tuesday"; " Wednesday"; "Thu"; "Foo"; "3Tuesday"; ""; "undefined"]
  = [Js.Int 1; Js.Int 2; Js.Int 3; Js.Int 4; Js.NaN; Js.NaN; Js.NaN; Js.NaN].
Proof. vm_compute. reflexivity. Qed.

Example known_ordinals :
  map JsString.parseInt ["3"; "0"; "9"; ""; " "; "x"; "-"]
  = [Js.Int 3; Js.Int 0; Js.Int 9; Js.NaN; Js.NaN; Js.NaN; Js.NaN].
Proof. vm_compute. reflexivity. Qed.

End ExampleFacts.



Module CalendarFacts.
Import Ecma EcmaFacts Moment MomentFacts Calendar.

Lemma nthFrom_hit s wd k :
  WeekDay s = wd -> nthFrom (s + 1) wd k = nthFrom s wd (k + 1).
Proof. unfold nthFrom, WeekDay. intros H. zdiv. Qed.

Lemma nthFrom_miss s wd k :
  0 <= wd <= 6 -> WeekDay s <> wd -> nthFrom (s + 1) wd k = nthFrom s wd k.
Proof. unfold nthFrom, WeekDay. intros Hwd H. zdiv. Qed.

Lemma nthFrom_first s wd : WeekDay s = wd -> nthFrom s wd 1 = s.
Proof. unfold nthFrom, WeekDay. intros H. zdiv. Qed.

Lemma nthFrom_ge s wd k : 1 <= k -> s <= nthFrom s wd k.
Proof. unfold nthFrom. intros H. zdiv. Qed.

Lemma nthFrom_lt s wd k : nthFrom s wd k < s + 7 * k.
Proof. unfold nthFrom. zdiv. Qed.

Lemma In_daysFrom n s x : In x (daysFrom s n) <-> s <= x < s + Z.of_nat n.
Proof.
  revert s. induction n as [|n IH]; intros s; simpl daysFrom.
  - simpl. lia.
  - simpl In. rewrite IH. lia.
Qed.

(** The occurrences of a weekday in a run of consecutive days are those
    given by [nthFrom], as long as they stay within the run. *)
Lemma nth_occurrence_daysFrom wd n : 0 <= wd <= 6 ->
  forall s k x,
    nth_error (List.filter (fun x => WeekDay x =? wd) (daysFrom s n)) k = Some x
    <-> x = nthFrom s wd (Z.of_nat k + 1) /\ x < s + Z.of_nat n.
Proof.
  intros Hwd. induction n as [|n IH]; intros s k x.
  - simpl. pose proof (nthFrom_ge s wd (Z.of_nat k + 1)).
    destruct k; simpl; split; try discriminate; lia.
  - simpl daysFrom. simpl List.filter.
    destruct (WeekDay s =? wd) eqn:E; bool_to_Z.
    + destruct k as [|k].
      * change (Z.of_nat 0 + 1) with 1. cbn [nth_error].
        rewrite (nthFrom_first s wd E). split.
        -- intros [= <-]. lia.
        -- intros [-> _]. reflexivity.
      * cbn [nth_error]. rewrite IH.
        rewrite (nthFrom_hit s wd _ E). rewrite Nat2Z.inj_succ.
        replace (Z.succ (Z.of_nat k) + 1) with (Z.of_nat k + 1 + 1) by lia. lia.
    + rewrite IH. rewrite (nthFrom_miss s wd _ Hwd E). lia.
Qed.


Lemma DaysInMonth_range y m : 0 <= m <= 11 -> 28 <= DaysInMonth y m <= 31.
Proof.
  intros Hm. unfold DaysInMonth.
  assert (Hl : 0 <= DaysInYear y - 365 <= 1) by (destruct (DaysInYear_cases y); lia).
  destruct (monthStart_mono m _ Hl Hm) as (_ & H & _). exact H.
Qed.

(** A day lies in its own month. *)
Lemma civilDay_in_month d :
  In (civilDay d) (monthDates (year d) (month d)).
Proof.
  unfold monthDates. apply In_daysFrom.
  pose proof (DateFromDay_range (civilDay d)) as Hdt.
  pose proof (civilDay_startOf_month_date d) as Hs.
  rewrite civilDay_startOf_month in Hs. fold (year d) (month d) (date d) in Hdt.
  lia.
Qed.


End CalendarFacts.

(** ** The heavy-pickup loop *)

Module HeavyDayFacts.
Import Ecma EcmaFacts Moment MomentFacts Calendar CalendarFacts HoustonScheduler.

Section Loop.
Variable this : Scheduler.

(** The loop is not entered when its test fails at once. *)
Lemma isHeavyDay_loop_exit fuel cur occ :
  Js.lt (Js.Int occ) (junkWeekOfMonth (pickupDays this)) = false ->
  isHeavyDay_loop fuel this cur occ = Some cur.
Proof. intros H. destruct fuel; cbn [isHeavyDay_loop]; rewrite H; reflexivity. Qed.

(** Without a positive ordinal the result is [false] whatever the fuel:
    the day before the first of the month is not in the month. *)
Lemma isHeavyDay_no_ordinal fuel d :
  Js.lt (Js.Int 0) (junkWeekOfMonth (pickupDays this)) = false ->
  isHeavyDay fuel this d = Some false.
Proof.
  intros H. unfold isHeavyDay. rewrite (isHeavyDay_loop_exit _ _ _ H). simpl.
  f_equal. rewrite isSame_day_civilDay, civilDay_add_days. unfold clone.
  rewrite civilDay_startOf_month_date.
  pose proof (DateFromDay_range (civilDay d)) as Hr. fold (date d) in Hr.
  apply Z.eqb_neq. lia.
Qed.

(** A weekday that equals no day of the week never advances the count:
    with a positive ordinal the loop runs for ever. *)
Lemma isHeavyDay_loop_diverges fuel cur :
  Js.lt (Js.Int 0) (junkWeekOfMonth (pickupDays this)) = true ->
  (forall w, 0 <= w <= 6 -> Js.eq (Js.Int w) (junkDay (pickupDays this)) = false) ->
  isHeavyDay_loop fuel this cur 0 = None.
Proof.
  intros Hlt Hne. revert cur. induction fuel as [|fuel IH]; intros cur.
  - cbn [isHeavyDay_loop]. now rewrite Hlt.
  - cbn [isHeavyDay_loop]. rewrite Hlt, (Hne _ (day_range cur)). apply IH.
Qed.

Lemma isHeavyDay_diverges fuel d :
  Js.lt (Js.Int 0) (junkWeekOfMonth (pickupDays this)) = true ->
  (forall w, 0 <= w <= 6 -> Js.eq (Js.Int w) (junkDay (pickupDays this)) = false) ->
  isHeavyDay fuel this d = None.
Proof.
  intros Hlt Hne. unfold isHeavyDay.
  now rewrite (isHeavyDay_loop_diverges _ _ Hlt Hne).
Qed.

Section ValidRule.
Variables N wd : Z.
Hypothesis HN : junkWeekOfMonth (pickupDays this) = Js.Int N.
Hypothesis Hwd : junkDay (pickupDays this) = Js.Int wd.
Hypothesis wd_range : 0 <= wd <= 6.

(** From day [cur] with [occ] occurrences counted, the loop stops one day
    after the [(N - occ)]-th next occurrence of the weekday. *)
Lemma isHeavyDay_loop_run fuel : forall cur occ,
  occ < N ->
  (Z.to_nat (nthFrom (civilDay cur) wd (N - occ) - civilDay cur + 1) <= fuel)%nat ->
  isHeavyDay_loop fuel this cur occ
  = Some (add_days (nthFrom (civilDay cur) wd (N - occ) - civilDay cur + 1) cur).
Proof.
  induction fuel as [|fuel IH]; intros cur occ Hocc Hfuel.
  - pose proof (nthFrom_ge (civilDay cur) wd (N - occ)). lia.
  - cbn [isHeavyDay_loop]. rewrite HN, Hwd. cbn [Js.lt Js.eq].
    replace (occ <? N) with true by (symmetry; apply Z.ltb_lt; exact Hocc).
    unfold Moment.day.
    destruct (WeekDay (civilDay cur) =? wd) eqn:E; bool_to_Z.
    + destruct (Z.eq_dec (occ + 1) N) as [Hlast | Hmore].
      * rewrite isHeavyDay_loop_exit
          by (rewrite HN; cbn [Js.lt]; apply Z.ltb_ge; lia).
        replace (N - occ) with 1 by lia.
        rewrite (nthFrom_first _ _ E). do 2 f_equal. lia.
      * pose proof (nthFrom_hit (civilDay cur) wd (N - (occ + 1)) E) as Hn.
        replace (N - (occ + 1) + 1) with (N - occ) in Hn by lia.
        rewrite IH; rewrite ?civilDay_add_days, ?Hn; [|lia|lia].
        rewrite add_days_add_days. do 2 f_equal. lia.
    + pose proof (nthFrom_miss (civilDay cur) wd (N - occ) wd_range E) as Hn.
      pose proof (nthFrom_ge (civilDay cur + 1) wd (N - occ) ltac:(lia)).
      rewrite IH; rewrite ?civilDay_add_days, ?Hn; [|lia|lia].
      rewrite add_days_add_days. do 2 f_equal. lia.
Qed.

(** With [7 * N] iterations allowed, [isHeavyDay] returns, and says
    whether the day is the [N]-th such weekday counted from the first of
    its month. *)
Lemma isHeavyDay_returns fuel d :
  1 <= N -> (Z.to_nat (7 * N) <= fuel)%nat ->
  isHeavyDay fuel this d
  = Some (nthFrom (MakeDay (year d) (month d) 1) wd N =? civilDay d).
Proof.
  intros H1 Hfuel. unfold isHeavyDay, clone.
  pose proof (nthFrom_lt (civilDay (startOf_month d)) wd N) as Hlt.
  pose proof (nthFrom_ge (civilDay (startOf_month d)) wd N H1) as Hge.
  rewrite isHeavyDay_loop_run; rewrite ?Z.sub_0_r; [|lia|lia].
  simpl. f_equal.
  rewrite isSame_day_civilDay, !civilDay_add_days, civilDay_startOf_month.
  f_equal. lia.
Qed.

(** The same, in the words of the specification. *)
Lemma isHeavyDay_nth fuel d :
  1 <= N -> (Z.to_nat (7 * N) <= fuel)%nat ->
  (isHeavyDay fuel this d = Some true <-> isNthOccurrence wd N d) /\
  (isHeavyDay fuel this d = Some false <-> ~ isNthOccurrence wd N d).
Proof.
  intros H1 Hfuel. rewrite (isHeavyDay_returns fuel d H1 Hfuel).
  assert (Hspec : isNthOccurrence wd N d
                  <-> nthFrom (MakeDay (year d) (month d) 1) wd N = civilDay d).
  { unfold isNthOccurrence, occurrences, monthDates.
    rewrite (nth_occurrence_daysFrom wd _ wd_range).
    replace (Z.of_nat (Z.to_nat (N - 1)) + 1) with N by lia.
    pose proof (civilDay_in_month d) as Hin. unfold monthDates in Hin.
    apply In_daysFrom in Hin. intuition lia. }
  rewrite Hspec.
  destruct (nthFrom (MakeDay (year d) (month d) 1) wd N =? civilDay d) eqn:E;
    bool_to_Z; split; split; intros; congruence.
Qed.

End ValidRule.
End Loop.

End HeavyDayFacts.

(** ** Classification of a day and the window of events *)

Module SchedulerFacts.
Import Spec.
Import Ecma EcmaFacts Moment MomentFacts Calendar CalendarFacts.
Import HoustonScheduler HeavyDayFacts.

Lemma isHeavyDay_total this fuel d :
  loopReturns (pickupDays this) = true ->
  (enoughFuel (pickupDays this) <= fuel)%nat ->
  exists b, isHeavyDay fuel this d = Some b.
Proof.
  unfold loopReturns, enoughFuel. intros Hok Hfuel.
  destruct (Js.lt (Js.Int 0) (junkWeekOfMonth (pickupDays this))) eqn:Hlt.
  - destruct (junkWeekOfMonth (pickupDays this)) as [|N] eqn:HN; [discriminate|].
    destruct (junkDay (pickupDays this)) as [|wd] eqn:Hwd; [discriminate|].
    cbn [negb orb Js.lt] in *. apply andb_true_iff in Hok. bool_to_Z.
    eexists. apply (isHeavyDay_returns this N wd HN Hwd); lia.
  - exists false. now apply isHeavyDay_no_ordinal.
Qed.

Lemma isHeavyDay_partial this fuel d :
  loopReturns (pickupDays this) = false -> isHeavyDay fuel this d = None.
Proof.
  unfold loopReturns. intros Hok. apply orb_false_iff in Hok as [Hlt Hwd].
  apply negb_false_iff in Hlt. apply isHeavyDay_diverges; [exact Hlt|].
  intros w Hw. destruct (junkDay (pickupDays this)) as [|wd]; [reflexivity|].
  cbn [Js.eq]. apply Z.eqb_neq. intros ->.
  apply andb_false_iff in Hwd. bool_to_Z. lia.
Qed.

(** [isJunkDay] and [isTreeDay] sit on opposite sides of [isEvenMonth]. *)
Lemma isJunkDay_true fuel this d :
  isJunkDay fuel this d = Some true <->
  isEvenMonth d = true /\ isHeavyDay fuel this d = Some true.
Proof. unfold isJunkDay. destruct (isEvenMonth d); intuition congruence. Qed.

Lemma isTreeDay_true fuel this d :
  isTreeDay fuel this d = Some true <->
  isEvenMonth d = false /\ isHeavyDay fuel this d = Some true.
Proof.
  unfold isTreeDay. destruct (isEvenMonth d); cbn [negb]; intuition congruence.
Qed.

(** What [getCategoriesForDay] returns, tag by tag. *)
Lemma getCategoriesForDay_inv fuel this d cats :
  getCategoriesForDay fuel this d = Some cats ->
  exists junk tree,
    isJunkDay fuel this d = Some junk /\ isTreeDay fuel this d = Some tree /\
    cats = ((if isWasteDay this d then ["waste"] else [])
            ++ (if junk then ["junk"] else [])
            ++ (if tree then ["tree"] else [])
            ++ (if isRecyclingDay this d then ["recycling"] else []))%list.
Proof.
  unfold getCategoriesForDay, Lodash.toPairs.
  destruct (isJunkDay fuel this d) as [junk|]; [|discriminate].
  destruct (isTreeDay fuel this d) as [tree|]; [|discriminate].
  simpl. intros [= <-]. exists junk, tree. repeat split.
  destruct (isWasteDay this d), junk, tree, (isRecyclingDay this d); reflexivity.
Qed.

Lemma getCategoriesForDay_total fuel this d :
  loopReturns (pickupDays this) = true ->
  (enoughFuel (pickupDays this) <= fuel)%nat ->
  exists cats, getCategoriesForDay fuel this d = Some cats.
Proof.
  intros Hok Hfuel. destruct (isHeavyDay_total this fuel d Hok Hfuel) as [b Hb].
  unfold getCategoriesForDay, isJunkDay, isTreeDay. rewrite Hb.
  destruct (isEvenMonth d); simpl; eauto.
Qed.

Lemma In_categories fuel this d cats :
  getCategoriesForDay fuel this d = Some cats ->
  (In "waste" cats <-> isWasteDay this d = true) /\
  (In "junk" cats <-> isJunkDay fuel this d = Some true) /\
  (In "tree" cats <-> isTreeDay fuel this d = Some true) /\
  (In "recycling" cats <-> isRecyclingDay this d = true).
Proof.
  intros H. destruct (getCategoriesForDay_inv _ _ _ _ H) as (j & t & -> & -> & ->).
  destruct (isWasteDay this d), j, t, (isRecyclingDay this d); simpl;
    intuition (discriminate || congruence).
Qed.

(** [map] with a function that may not return. *)
Lemma mapOpt_Forall2 {A B} (f : A -> option B) l ys :
  mapOpt f l = Some ys -> Forall2 (fun x y => f x = Some y) l ys.
Proof.
  revert ys. induction l as [|x l IH]; simpl; intros ys H.
  - injection H as <-. constructor.
  - destruct (f x) as [y|] eqn:Hy; simpl in H; [|discriminate].
    destruct (mapOpt f l) as [ys'|]; simpl in H; [|discriminate].
    injection H as <-. constructor; auto.
Qed.

Lemma mapOpt_total {A B} (f : A -> option B) l :
  (forall x, In x l -> exists y, f x = Some y) -> exists ys, mapOpt f l = Some ys.
Proof.
  induction l as [|x l IH]; simpl; intros H; [eauto|].
  destruct (H x (or_introl eq_refl)) as [y ->].
  destruct IH as [ys ->]; [intros; apply H; auto|]. simpl. eauto.
Qed.

Lemma mapOpt_None {A B} (f : A -> option B) l x :
  In x l -> f x = None -> mapOpt f l = None.
Proof.
  induction l as [|a l IH]; simpl; [tauto|]. intros [-> | Hin] Hx.
  - now rewrite Hx.
  - destruct (f a); simpl; [|reflexivity]. now rewrite (IH Hin Hx).
Qed.

Lemma groupEvents_inv fuel this d e :
  groupEvents fuel this d = Some e ->
  day e = d /\ getCategoriesForDay fuel this d = Some (categories e) /\
  possibleHoliday e = isPossibleHoliday this d.
Proof.
  unfold groupEvents. destruct (getCategoriesForDay fuel this d); simpl;
    [|discriminate].
  intros [= <-]. simpl. auto.
Qed.


Lemma getUpcomingEvents_inv fuel this now n evs :
  getUpcomingEvents fuel this now n = Some evs ->
  exists events,
    Forall2 (fun d e => groupEvents fuel this d = Some e) (windowDays now n) events
    /\ evs = List.filter hasCategories events.
Proof.
  unfold getUpcomingEvents. fold (windowDays now n).
  destruct (mapOpt _ _) as [events|] eqn:Hm; simpl; [|discriminate].
  intros [= <-]. exists events. split; [|reflexivity].
  now apply mapOpt_Forall2.
Qed.

Lemma getUpcomingEvents_total fuel this now n :
  loopReturns (pickupDays this) = true ->
  (enoughFuel (pickupDays this) <= fuel)%nat ->
  exists evs, getUpcomingEvents fuel this now n = Some evs.
Proof.
  intros Hok Hfuel. unfold getUpcomingEvents.
  destruct (mapOpt_total (groupEvents fuel this) (windowDays now n)) as [events He].
  - intros d _. unfold groupEvents.
    destruct (getCategoriesForDay_total fuel this d Hok Hfuel) as [cats ->].
    simpl. eauto.
  - fold (windowDays now n). rewrite He. simpl. eauto.
Qed.

(** Every event returned comes from a date of the window. *)
Lemma event_origin fuel this now n evs e :
  getUpcomingEvents fuel this now n = Some evs -> In e evs ->
  In (day e) (windowDays now n) /\
  getCategoriesForDay fuel this (day e) = Some (categories e) /\
  possibleHoliday e = isPossibleHoliday this (day e) /\
  categories e <> [].
Proof.
  intros H Hin. destruct (getUpcomingEvents_inv _ _ _ _ _ H) as (events & HF & ->).
  apply filter_In in Hin as [Hin Hcat].
  assert (Hd : exists d, In d (windowDays now n) /\ groupEvents fuel this d = Some e).
  { clear -HF Hin. induction HF as [|d e' ds es Hde HF IH]; [destruct Hin|].
    destruct Hin as [-> | Hin].
    - exists d. split; [left; reflexivity | exact Hde].
    - destruct (IH Hin) as (d' & Hd' & He'). exists d'. split; [right|]; assumption. }
  destruct Hd as (d & Hd & Hg).
  destruct (groupEvents_inv _ _ _ _ Hg) as (-> & Hc & Hh).
  repeat split; try assumption.
  unfold hasCategories in Hcat. intros Hnil. rewrite Hnil in Hcat. discriminate.
Qed.

(** [_.range(0, n)] counts up to [n] when [n] is not negative, and down to
    [n] when it is. *)
Lemma range_up n : 0 <= n -> Lodash.range 0 n = map Z.of_nat (seq 0 (Z.to_nat n)).
Proof.
  intros Hn. unfold Lodash.range, Lodash.baseRange.
  destruct (0 <? n) eqn:E; bool_to_Z.
  - rewrite Z.sub_0_r, Z.div_1_r, Z.max_l by lia.
    apply map_ext. intros i. lia.
  - replace n with 0 by lia. reflexivity.
Qed.

Lemma range_down n :
  n < 0 -> Lodash.range 0 n = map (fun i => - Z.of_nat i) (seq 0 (Z.to_nat (- n))).
Proof.
  intros Hn. unfold Lodash.range, Lodash.baseRange.
  replace (0 <? n) with false by (symmetry; apply Z.ltb_ge; lia).
  replace ((n - 0) / -1) with (- n) by zdiv.
  rewrite Z.max_l by lia. apply map_ext. intros i. lia.
Qed.

End SchedulerFacts.


(** ** The window of events (claims C6, C7, C8 and C9) *)

Module Window.
Import Spec.
Import Ecma EcmaFacts Moment MomentFacts Calendar CalendarFacts.
Import HoustonScheduler HeavyDayFacts SchedulerFacts.


Lemma Forall2_map_day fuel this ds events :
  Forall2 (fun d e => groupEvents fuel this d = Some e) ds events ->
  map day events = ds.
Proof.
  induction 1 as [|d e ds es Hde _ IH]; simpl; [reflexivity|].
  destruct (groupEvents_inv _ _ _ _ Hde) as (-> & _). now rewrite IH.
Qed.

Lemma sorted_filter {A} (R : A -> A -> Prop) p l :
  StronglySorted R l -> StronglySorted R (List.filter p l).
Proof.
  induction 1 as [|a l Hs IH Hall]; simpl; [constructor|].
  destruct (p a); [|exact IH]. constructor; [exact IH|].
  apply List.Forall_forall. intros x Hx. apply filter_In in Hx as [Hx _].
  rewrite List.Forall_forall in Hall. now apply Hall.
Qed.

Lemma sorted_by_day events :
  StronglySorted Z.lt (map (fun e => civilDay (day e)) events) ->
  StronglySorted earlier events.
Proof.
  induction events as [|e es IH]; simpl; intros H; [constructor|].
  inversion H as [|? ? Hs Hall]; subst. constructor; [now apply IH|].
  rewrite List.Forall_forall in *. intros x Hx. apply Hall.
  apply in_map_iff. now exists x.
Qed.

Lemma sorted_run c k : forall s,
  StronglySorted Z.lt (map (fun i => c + Z.of_nat i) (seq s k)).
Proof.
  induction k as [|k IH]; intros s; simpl; constructor; [apply IH|].
  apply List.Forall_forall. intros x Hx.
  apply in_map_iff in Hx as (i & <- & Hi). apply in_seq in Hi. lia.
Qed.

Lemma windowDays_up now n : 0 <= n ->
  windowDays now n
  = map (fun i => add_days (Z.of_nat i) (startOf_day now)) (seq 0 (Z.to_nat n)).
Proof.
  intros Hn. unfold windowDays, clone. rewrite (range_up n Hn), map_map.
  reflexivity.
Qed.

Lemma Forall2_filter_surjective {A B} (R : A -> B -> Prop) p l1 l2 x :
  Forall2 R l1 l2 -> In x l1 ->
  exists y, In y l2 /\ R x y /\ (p y = true -> In y (List.filter p l2)).
Proof.
  induction 1 as [|a b l1 l2 Hab _ IH]; simpl; [tauto|].
  intros [-> | Hin].
  - exists b. repeat split; auto. intros Hp. rewrite Hp. now left.
  - destruct (IH Hin) as (y & Hy & HR & Hf). exists y. repeat split; auto.
    intros Hp. destruct (p b); [right|]; auto.
Qed.

(** C6. For every rule set and every window length [n >= 0], whatever
    [getUpcomingEvents] returns has at most [n] events, on strictly
    increasing dates taken from the [n] consecutive dates that start at the
    start of today; every event carries the categories and the holiday flag
    of its date, and has a category; every date of the window that has a
    category is in the sequence, and a date that has none is not.  The call
    returns, given enough iterations, on every rule set on which the
    heavy-pickup loop stops. *)
Theorem getUpcomingEvents_window this now n :
  0 <= n ->
  (forall fuel evs,
     getUpcomingEvents fuel this now n = Some evs ->
     Z.of_nat (length evs) <= n /\
     StronglySorted earlier evs /\
     Forall (fun e => exists i, 0 <= i < n /\
                        day e = add_days i (startOf_day now) /\
                        civilDay (day e) = civilDay now + i /\
                        getCategoriesForDay fuel this (day e) = Some (categories e) /\
                        possibleHoliday e = isPossibleHoliday this (day e)) evs /\
     Forall (fun e => categories e <> []) evs /\
     (forall i cats,
        0 <= i < n ->
        getCategoriesForDay fuel this (add_days i (startOf_day now)) = Some cats ->
        cats <> [] ->
        exists e, In e evs /\ day e = add_days i (startOf_day now)
                  /\ categories e = cats) /\
     (forall i,
        0 <= i < n ->
        getCategoriesForDay fuel this (add_days i (startOf_day now)) = Some [] ->
        forall e, In e evs -> day e <> add_days i (startOf_day now))) /\
  (loopReturns (pickupDays this) = true ->
   forall fuel, (enoughFuel (pickupDays this) <= fuel)%nat ->
   exists evs, getUpcomingEvents fuel this now n = Some evs).
Proof.
  intros Hn. split; [|intros Hok fuel Hfuel; now apply getUpcomingEvents_total].
  intros fuel evs H.
  pose proof (fun e => event_origin fuel this now n evs e H) as Horigin.
  destruct (getUpcomingEvents_inv _ _ _ _ _ H) as (events & HF & ->).
  pose proof (Forall2_map_day _ _ _ _ HF) as Hdays.
  rewrite (windowDays_up now n Hn) in Hdays.
  assert (Hlen : length events = Z.to_nat n).
  { rewrite <- (length_map day events), Hdays, length_map, length_seq. reflexivity. }
  split; [|split; [|split; [|split; [|split]]]].
  - pose proof (filter_length_le hasCategories events). lia.
  - apply sorted_filter, sorted_by_day.
    rewrite <- (map_map day civilDay), Hdays, map_map.
    erewrite map_ext; [apply (sorted_run (civilDay now) (Z.to_nat n) 0%nat)|].
    intros i. cbv beta. now rewrite civilDay_add_days, civilDay_startOf_day.
  - apply List.Forall_forall. intros e He.
    destruct (Horigin e He) as (_ & Hcats & Hflag & _).
    apply filter_In in He as [He _].
    assert (Hd : In (day e) (map day events)) by (apply in_map; exact He).
    rewrite Hdays in Hd. apply in_map_iff in Hd as (i & Hi & Hseq).
    apply in_seq in Hseq. exists (Z.of_nat i).
    split; [lia|]. split; [now symmetry|]. split; [|split; assumption].
    rewrite <- Hi. now rewrite civilDay_add_days, civilDay_startOf_day.
  - apply List.Forall_forall. intros e He. apply filter_In in He as [_ Hc].
    unfold hasCategories in Hc. intros Hnil. rewrite Hnil in Hc. discriminate.
  - intros i cats Hi Hcats Hne.
    assert (Hin : In (add_days i (startOf_day now)) (windowDays now n)).
    { rewrite (windowDays_up now n Hn). apply in_map_iff.
      exists (Z.to_nat i). split; [f_equal; lia|]. apply in_seq. lia. }
    destruct (Forall2_filter_surjective _ hasCategories _ _ _ HF Hin)
      as (e & _ & Hg & Hf).
    destruct (groupEvents_inv _ _ _ _ Hg) as (Hday & Hc & _).
    rewrite Hcats in Hc. injection Hc as Hc. exists e. repeat split; auto.
    apply Hf. unfold hasCategories. rewrite <- Hc. destruct cats; [congruence|reflexivity].
  - intros i Hi Hnone e He Hday.
    destruct (Horigin e He) as (_ & Hcats & _ & Hne).
    rewrite Hday, Hnone in Hcats. injection Hcats as Hcats. now symmetry in Hcats.
Qed.

Lemma getUpcomingEvents_window_witness :
  0 <= 14 /\
  getUpcomingEvents 14 Example.scheduler Example.now 14 = Some Example.events /\
  Z.of_nat (length Example.events) <= 14 /\
  StronglySorted earlier Example.events /\
  Forall (fun e => categories e <> []) Example.events /\
  forall e, In e Example.events -> day e <> add_days 1 (startOf_day Example.now).
Proof.
  assert (H0 : 0 <= 14) by lia.
  assert (H1 : getUpcomingEvents 14 Example.scheduler Example.now 14
               = Some Example.events) by (vm_compute; reflexivity).
  destruct (proj1 (getUpcomingEvents_window Example.scheduler Example.now 14 H0)
              14%nat Example.events H1) as (Hlen & Hsorted & _ & Hcat & _ & Hnone).
  split; [exact H0|]. split; [exact H1|]. split; [exact Hlen|].
  split; [exact Hsorted|]. split; [exact Hcat|].
  apply (Hnone 1); [lia | vm_compute; reflexivity].
Defined.

End Window.

Module Categories.
Import Spec.
Import Ecma EcmaFacts Moment MomentFacts.
Import HoustonScheduler HeavyDayFacts SchedulerFacts.


(** C7. Junk and tree never go together: [isJunkDay] needs an even
    1-based month number and [isTreeDay] an odd one, on the same
    [isHeavyDay] test, so at most one of them is true, and no category list
    and no event holds both tags. *)
Theorem junk_tree_exclusive fuel this d :
  (isJunkDay fuel this d = Some true <->
     (month d + 1) mod 2 = 0 /\ isHeavyDay fuel this d = Some true) /\
  (isTreeDay fuel this d = Some true <->
     (month d + 1) mod 2 = 1 /\ isHeavyDay fuel this d = Some true) /\
  ~ (isJunkDay fuel this d = Some true /\ isTreeDay fuel this d = Some true) /\
  (forall cats, getCategoriesForDay fuel this d = Some cats ->
     ~ (In "junk" cats /\ In "tree" cats)) /\
  (forall now n evs, getUpcomingEvents fuel this now n = Some evs ->
     Forall (fun e => ~ (In "junk" (categories e) /\ In "tree" (categories e))) evs).
Proof.
  assert (Hex : forall d', ~ (isJunkDay fuel this d' = Some true
                              /\ isTreeDay fuel this d' = Some true)).
  { intros d' [Hj Ht]. apply isJunkDay_true in Hj as [Hj _].
    apply isTreeDay_true in Ht as [Ht _]. congruence. }
  assert (Hcats : forall d' cats, getCategoriesForDay fuel this d' = Some cats ->
                    ~ (In "junk" cats /\ In "tree" cats)).
  { intros d' cats H [Hj Ht].
    destruct (In_categories _ _ _ _ H) as (_ & Hjunk & Htree & _).
    apply (Hex d'). split; [now apply Hjunk | now apply Htree]. }
  split; [|split; [|split; [|split]]].
  - rewrite isJunkDay_true. unfold isEvenMonth. now rewrite Z.eqb_eq.
  - rewrite isTreeDay_true. unfold isEvenMonth. rewrite Z.eqb_neq.
    assert (Hodd : (month d + 1) mod 2 <> 0 <-> (month d + 1) mod 2 = 1) by zdiv.
    now rewrite Hodd.
  - apply Hex.
  - apply Hcats.
  - intros now n evs H. apply List.Forall_forall. intros e He.
    destruct (event_origin _ _ _ _ _ _ H He) as (_ & Hc & _). now apply (Hcats (day e)).
Qed.

Lemma junk_tree_exclusive_witness :
  isTreeDay 14 Example.scheduler (Example.at_ 2024 0 8 7) = Some true /\
  isJunkDay 14 Example.scheduler (Example.at_ 2024 0 8 7) <> Some true.
Proof.
  destruct (junk_tree_exclusive 14 Example.scheduler (Example.at_ 2024 0 8 7))
    as (_ & Htree & Hexcl & _).
  assert (H : isTreeDay 14 Example.scheduler (Example.at_ 2024 0 8 7) = Some true).
  { apply Htree. split; vm_compute; reflexivity. }
  split; [exact H | intros Hjunk; apply Hexcl; now split].
Defined.

(** C9. The category list of a day is a subsequence of waste, junk, tree,
    recycling, in that order and without repeats; so is the list of every
    event.  The list is returned, given enough iterations, on every rule
    set on which the heavy-pickup loop stops. *)
Theorem categories_in_order fuel this d :
  (forall cats, getCategoriesForDay fuel this d = Some cats ->
     sublist cats tagOrder /\ NoDup cats) /\
  (forall now n evs, getUpcomingEvents fuel this now n = Some evs ->
     Forall (fun e => sublist (categories e) tagOrder /\ NoDup (categories e)) evs) /\
  (loopReturns (pickupDays this) = true ->
   (enoughFuel (pickupDays this) <= fuel)%nat ->
   exists cats, getCategoriesForDay fuel this d = Some cats).
Proof.
  assert (Hcats : forall d' cats, getCategoriesForDay fuel this d' = Some cats ->
                    sublist cats tagOrder /\ NoDup cats).
  { intros d' cats H.
    destruct (getCategoriesForDay_inv _ _ _ _ H) as (j & t & _ & _ & ->).
    unfold tagOrder.
    destruct (isWasteDay this d'), j, t, (isRecyclingDay this d'); simpl;
      (split; [repeat constructor | compute_done]). }
  split; [|split].
  - apply Hcats.
  - intros now n evs H. apply List.Forall_forall. intros e He.
    destruct (event_origin _ _ _ _ _ _ H He) as (_ & Hc & _). now apply (Hcats (day e)).
  - apply getCategoriesForDay_total.
Qed.

Lemma categories_in_order_witness :
  sublist ["waste"] tagOrder /\ NoDup ["waste"] /\
  exists cats, getCategoriesForDay 14 Example.scheduler (Example.at_ 2024 0 10 0)
               = Some cats.
Proof.
  destruct (categories_in_order 14 Example.scheduler (Example.at_ 2024 0 10 0))
    as (Hcats & _ & Htotal).
  destruct (Hcats ["waste"]) as [Hsub Hnd]; [vm_compute; reflexivity|].
  repeat split; [exact Hsub | exact Hnd |].
  apply Htotal; [vm_compute; reflexivity | vm_compute; lia].
Defined.

(** C8. [isPossibleHoliday] is true exactly for the dates whose calendar
    day is that of an entry of the holiday table, whatever the time of day
    and whatever the pickup rules; the flag of every event is this
    answer. *)
Theorem isPossibleHoliday_iff this d :
  (isPossibleHoliday this d = true <->
     exists h, In h (holidays this) /\ civilDay h = civilDay d) /\
  ((forall h, In h (holidays this) -> civilDay h <> civilDay d) ->
     isPossibleHoliday this d = false) /\
  (forall rules, isPossibleHoliday (mkScheduler rules (holidays this)) d
                 = isPossibleHoliday this d) /\
  (forall fuel now n evs e,
     getUpcomingEvents fuel this now n = Some evs -> In e evs ->
     (possibleHoliday e = true <->
        exists h, In h (holidays this) /\ civilDay h = civilDay (day e))).
Proof.
  assert (Hiff : forall d', isPossibleHoliday this d' = true <->
                   exists h, In h (holidays this) /\ civilDay h = civilDay d').
  { intros d'. unfold isPossibleHoliday, Lodash.some. rewrite existsb_exists.
    split; intros (h & Hin & Hh); exists h; split; auto;
      rewrite isSame_day_civilDay in *; now apply Z.eqb_eq. }
  split; [|split; [|split]].
  - apply Hiff.
  - intros Hnone. apply not_true_is_false. intros H.
    apply Hiff in H as (h & Hin & Hh). now apply (Hnone h).
  - reflexivity.
  - intros fuel now n evs e H He.
    destruct (event_origin _ _ _ _ _ _ H He) as (_ & _ & Hh & _).
    rewrite Hh. apply Hiff.
Qed.

Lemma isPossibleHoliday_iff_witness :
  isPossibleHoliday Example.scheduler (Example.at_ 2024 0 10 7) = true /\
  isPossibleHoliday Example.scheduler (Example.at_ 2024 0 11 7) = false.
Proof.
  split.
  - apply (proj1 (isPossibleHoliday_iff Example.scheduler (Example.at_ 2024 0 10 7))).
    exists (Example.at_ 2024 0 10 12). split; [right; left; reflexivity|].
    vm_compute. reflexivity.
  - apply (proj1 (proj2 (isPossibleHoliday_iff Example.scheduler
                           (Example.at_ 2024 0 11 7)))).
    intros h [<- | [<- | []]]; vm_compute; discriminate.
Defined.

End Categories.

(** ** What [parseData] stores *)

Module ParseFacts.
Import Moment HoustonScheduler.




Ltac unfold_parseData :=
  unfold parseData, mbind, completion_bind, method.


Lemma parseData_junk w j r p :
  parseData w j r = Normal p ->
  if isValidData j
  then exists s, attribute j "SERVICE_DA" = Some s /\
         junkWeekOfMonth p = JsString.parseInt (JsString.substr s 0 (Some 1)) /\
         junkDay p = getDayIndex
                       (Some (JsString.substr s (JsString.indexOf s " ") None))
  else junkWeekOfMonth p = Js.Int (-1) /\ junkDay p = Js.Int (-1).
Proof.
  unfold_parseData. intros H.
  destruct (isValidData j); [destruct (attribute j "SERVICE_DA") as [s|]|];
    try discriminate;
    (destruct (isValidData r); [destruct (attribute r "SERVICE_DAY") as [sr|]|]);
    try discriminate; injection H as <-; simpl; eauto.
Qed.

Lemma parseData_recycling w j r p :
  parseData w j r = Normal p ->
  if isValidData r
  then exists s, attribute r "SERVICE_DAY" = Some s /\
         recyclingDay p = getDayIndex (head (JsString.split s "-")) /\
         recyclingOnEvenWeeks p = negb (JsString.includes s "-A")
  else recyclingDay p = Js.Int (-1) /\ recyclingOnEvenWeeks p = false.
Proof.
  unfold_parseData. intros H.
  destruct (isValidData j); [destruct (attribute j "SERVICE_DA") as [sj|]|];
    try discriminate;
    (destruct (isValidData r); [destruct (attribute r "SERVICE_DAY") as [s|]|]);
    try discriminate; injection H as <-; simpl; eauto.
Qed.

(** [parseData] returns whenever the fields it calls methods on are
    strings. *)
Lemma parseData_total w j r :
  (isValidData j = true -> is_Some (attribute j "SERVICE_DA")) ->
  (isValidData r = true -> is_Some (attribute r "SERVICE_DAY")) ->
  exists p, parseData w j r = Normal p.
Proof.
  unfold_parseData. intros Hj Hr.
  destruct (isValidData j);
    [destruct (Hj eq_refl) as [sj ->]|];
    (destruct (isValidData r); [destruct (Hr eq_refl) as [sr ->]|]);
    eauto.
Qed.


Lemma substring_0_0 s : substring 0 0 s = "".
Proof. now destruct s. Qed.

(** [substr(0, 1)] is the first character. *)
Lemma substr_first c s : JsString.substr (String c s) 0 (Some 1) = String c "".
Proof.
  unfold JsString.substr. cbn [String.length]. rewrite Nat2Z.inj_succ.
  change (0 <? 0) with false. cbv iota.
  rewrite Z.min_l by lia. rewrite Z.sub_0_r, (Z.max_l 1 0), Z.min_l by lia.
  change (Z.to_nat 0) with 0%nat. change (Z.to_nat 1) with 1%nat.
  simpl. now rewrite substring_0_0.
Qed.



End ParseFacts.

(** ** The heavy-pickup day (claim C3) *)

Module HeavyDay.
Import Spec.
Import Ecma EcmaFacts Moment MomentFacts Calendar CalendarFacts.
Import HoustonScheduler HeavyDayFacts SchedulerFacts ParseFacts.


(** The loop is guarded by the ordinal alone: a rule set with the ordinal
    3 and the weekday at -1 would keep it running.  [parseData] stores no
    such rule set ([parseData_junk_unset_iff]). *)
Lemma weekday_alone_unset_never_returns :
  junkWeekOfMonth (pickupDays Example.weekdayUnset) = Js.Int 3 /\
  junkDay (pickupDays Example.weekdayUnset) = Js.Int (-1) /\
  ~ (exists fuel b, isHeavyDay fuel Example.weekdayUnset Example.now = Some b).
Proof.
  split; [reflexivity | split; [reflexivity|]]. intros (fuel & b & H).
  rewrite isHeavyDay_partial in H by reflexivity. discriminate.
Qed.



End HeavyDay.

(** ** Strings *)

Module JsStringFacts.
Import Spec.
Import JsString.

Lemma app_String c p q : String c p ++ q = String c (p ++ q).
Proof. reflexivity. Qed.

Lemma app_empty q : "" ++ q = q.
Proof. reflexivity. Qed.

Lemma append_assoc p q r : (p ++ q) ++ r = p ++ (q ++ r).
Proof.
  induction p as [|c p IH]; [reflexivity|]. now rewrite !app_String, IH.
Qed.

Lemma startsWith_iff s p : startsWith s p = true <-> exists q, s = p ++ q.
Proof.
  revert s. induction p as [|c p IH]; intros s; cbn [startsWith].
  - split; [intros _; now exists s | reflexivity].
  - destruct s as [|d s].
    + split; [discriminate | intros [q Hq]; discriminate].
    + destruct (Ascii.eqb c d) eqn:E.
      * apply Ascii.eqb_eq in E as ->. rewrite IH.
        split; intros [q Hq]; exists q; rewrite app_String in *; congruence.
      * apply Ascii.eqb_neq in E.
        split; [discriminate | intros [q Hq]; rewrite app_String in Hq; congruence].
Qed.


(** [includes] finds [sub] exactly when [s] splits around it. *)
Lemma includes_iff s sub :
  includes s sub = true <-> exists pre post, s = pre ++ sub ++ post.
Proof.
  induction s as [|c s IH]; cbn [includes]; rewrite orb_true_iff, startsWith_iff.
  - split.
    + intros [[q Hq] | H]; [|discriminate]. now exists "", q.
    + intros (pre & post & H). left.
      destruct pre; [now exists post | discriminate].
  - rewrite IH. split.
    + intros [[q Hq] | (pre & post & ->)].
      * now exists "", q.
      * now exists (String c pre), post.
    + intros (pre & post & H). destruct pre as [|d pre].
      * left. now exists post.
      * right. rewrite app_String in H. injection H as -> ->. now exists pre, post.
Qed.

Lemma span_all p s : all p s = true -> span p s = (s, "").
Proof.
  induction s as [|c s IH]; simpl; [reflexivity|].
  intros H. apply andb_true_iff in H as [-> H]. now rewrite (IH H).
Qed.

Lemma span_none p c s : p c = false -> span p (String c s) = ("", String c s).
Proof. intros H. simpl. now rewrite H. Qed.

Lemma all_impl (p q : ascii -> bool) s :
  (forall c, p c = true -> q c = true) -> all p s = true -> all q s = true.
Proof.
  intros Hpq. induction s as [|c s IH]; simpl; [reflexivity|].
  intros H. apply andb_true_iff in H as [Hc H]. now rewrite (Hpq c Hc), IH.
Qed.

(** The piece before the first separator. *)
Lemma split_head pre sep rest :
  all (fun c => negb (Ascii.eqb c sep)) pre = true ->
  (rest = "" \/ exists post, rest = String sep post) ->
  head (split (pre ++ rest) sep) = Some pre.
Proof.
  intros Hpre Hrest. induction pre as [|c pre IH].
  - rewrite app_empty. destruct Hrest as [-> | [post ->]]; cbn [split head];
      [reflexivity|].
    now rewrite Ascii.eqb_refl.
  - cbn [all] in Hpre. apply andb_true_iff in Hpre as [Hc Hpre].
    apply negb_true_iff in Hc. rewrite app_String. cbn [split].
    rewrite Hc. specialize (IH Hpre).
    destruct (split (pre ++ rest) sep) as [|piece pieces]; [discriminate|].
    cbn [head] in *. congruence.
Qed.

Lemma toLowerCase1_alpha c : isAlpha (toLowerCase1 c) = isAlpha c.
Proof. destruct c as [[] [] [] [] [] [] [] []]; reflexivity. Qed.

Lemma all_alpha_toLowerCase s : all isAlpha (toLowerCase s) = all isAlpha s.
Proof.
  induction s as [|c s IH]; simpl; [reflexivity|].
  now rewrite toLowerCase1_alpha, IH.
Qed.

Lemma isAlpha_not_digit c : isAlpha c = true -> isDigit c = false.
Proof. destruct c as [[] [] [] [] [] [] [] []]; vm_compute; congruence. Qed.

Lemma isAlpha_not_dash c : isAlpha c = true -> negb (Ascii.eqb c "-") = true.
Proof. destruct c as [[] [] [] [] [] [] [] []]; vm_compute; congruence. Qed.

End JsStringFacts.

(** ** What the ['dddd'] parser accepts *)

Module WeekdayParser.
Import Spec.
Import JsString JsStringFacts Moment HoustonScheduler.






Lemma isAlpha_isWordChar c : isAlpha c = true -> isWordChar c = true.
Proof. destruct c as [[] [] [] [] [] [] [] []]; vm_compute; congruence. Qed.

(** A word made of letters is what [matchWord] finds in it. *)
Lemma matchWord_alpha s : s <> "" -> all isAlpha s = true -> matchWord s = Some s.
Proof.
  intros Hne Hall. destruct s as [|c s]; [congruence|].
  assert (Hc : isAlpha c = true) by (cbn [all] in Hall; now apply andb_true_iff in Hall).
  assert (Hm : matchWordHere (String c s) = Some (String c s)).
  { unfold matchWordHere.
    rewrite (span_none _ c s (isAlpha_not_digit c Hc)).
    rewrite (span_all isWordChar (String c s))
      by (apply (all_impl isAlpha); [apply isAlpha_isWordChar | exact Hall]).
    reflexivity. }
  cbn [matchWord]. now rewrite Hm.
Qed.

(** The seven names are recognised whatever the case of their letters. *)
Lemma parse_dddd_day_name i name spelled :
  nth_error weekdays i = Some name ->
  toLowerCase spelled = toLowerCase name ->
  parse_dddd_day spelled = Js.Int (Z.of_nat i) /\ all isAlpha spelled = true.
Proof.
  intros Hi Hlow.
  assert (Hall : all isAlpha spelled = true).
  { rewrite <- all_alpha_toLowerCase, Hlow.
    do 7 (destruct i as [|i]; [injection Hi as <-; reflexivity|]).
    destruct i; discriminate. }
  assert (Hne : spelled <> "").
  { intros ->. do 7 (destruct i as [|i]; [injection Hi as <-; discriminate|]).
    destruct i; discriminate. }
  split; [|exact Hall].
  unfold parse_dddd_day. rewrite (matchWord_alpha _ Hne Hall).
  unfold weekdaysParse, weekdayRegexTest, testPrefix. rewrite Hlow.
  do 7 (destruct i as [|i]; [injection Hi as <-; reflexivity|]).
  destruct i; discriminate.
Qed.









End WeekdayParser.

(** ** Parsing the recycling record and unparsed weekdays (claims C4, C10) *)

Module Parsing.
Import Spec.
Import JsString JsStringFacts Moment.
Import HoustonScheduler SchedulerFacts ParseFacts WeekdayParser.

Lemma includes_after_letters pre rest sub :
  all isAlpha pre = true -> startsWith sub "-" = true ->
  includes (pre ++ rest) sub = includes rest sub.
Proof.
  intros Hpre Hsub. induction pre as [|c pre IH]; [reflexivity|].
  cbn [all] in Hpre. apply andb_true_iff in Hpre as [Hc Hpre].
  rewrite app_String. cbn [includes]. rewrite (IH Hpre).
  destruct sub as [|d sub]; [discriminate|]. cbn [startsWith] in *.
  destruct (Ascii.eqb "-" d) eqn:Hd; [|discriminate].
  apply Ascii.eqb_eq in Hd as <-.
  pose proof (isAlpha_not_dash c Hc) as Hdash. apply negb_true_iff in Hdash.
  rewrite Ascii.eqb_sym, Hdash. reflexivity.
Qed.


(** The claim fails for the suffix [-B]: the record [MONDAY-B] is parsed
    to Monday with [recyclingOnEvenWeeks = true]. *)
Lemma suffix_B_selects_even_weeks :
  parseData None None (Example.response "SERVICE_DAY" "MONDAY-B")
  = Normal (mkPickupDay (Js.Int (-1)) (Js.Int (-1)) (Js.Int (-1)) (Js.Int 1) true).
Proof. vm_compute. reflexivity. Qed.

(** C4, amended. For a valid recycling record, [recyclingOnEvenWeeks] is
    false exactly when the string contains [-A] and true otherwise, so
    true for the suffix [-B] as for no suffix; [recyclingDay] is the parsed
    weekday of the part before the first dash, which for a weekday name in
    any letter case is that weekday's index. *)
Theorem parseData_recycling_schedule w j r p s :
  parseData w j r = Normal p ->
  isValidData r = true ->
  attribute r "SERVICE_DAY" = Some s ->
  (recyclingOnEvenWeeks p = false <-> exists pre post, s = pre ++ "-A" ++ post) /\
  (forall pre rest,
     s = pre ++ rest -> noDash pre = true ->
     (rest = "" \/ exists t, rest = "-" ++ t) ->
     recyclingDay p = getDayIndex (Some pre)) /\
  (forall i name spelled rest,
     nth_error weekdays i = Some name ->
     toLowerCase spelled = toLowerCase name ->
     s = spelled ++ rest ->
     (rest = "" \/ exists t, rest = "-" ++ t) ->
     recyclingDay p = Js.Int (Z.of_nat i) /\
     recyclingOnEvenWeeks p = negb (includes rest "-A") /\
     (rest = "-A" -> recyclingOnEvenWeeks p = false) /\
     (rest = "-B" -> recyclingOnEvenWeeks p = true) /\
     (rest = "" -> recyclingOnEvenWeeks p = true)).
Proof.
  intros Hp Hvalid Hs. apply parseData_recycling in Hp. rewrite Hvalid in Hp.
  destruct Hp as (s' & Hs' & Hday & Heven).
  assert (s' = s) as -> by congruence. clear Hs'.
  assert (Hpart : forall pre rest,
            s = pre ++ rest -> noDash pre = true ->
            (rest = "" \/ exists t, rest = "-" ++ t) ->
            recyclingDay p = getDayIndex (Some pre)).
  { intros pre rest -> Hpre Hrest. rewrite Hday.
    now rewrite (split_head pre "-" rest Hpre Hrest). }
  split; [|split; [exact Hpart|]].
  - rewrite Heven, negb_false_iff. apply includes_iff.
  - intros i name spelled rest Hi Hlow -> Hrest.
    destruct (parse_dddd_day_name i name spelled Hi Hlow) as [Hparse Halpha].
    assert (Hincl : recyclingOnEvenWeeks p = negb (includes rest "-A")).
    { rewrite Heven. f_equal. now apply includes_after_letters. }
    split; [|split; [exact Hincl|]].
    + rewrite (Hpart spelled rest eq_refl); [exact Hparse | | exact Hrest].
      apply (all_impl isAlpha); [apply isAlpha_not_dash | exact Halpha].
    + rewrite Hincl. repeat split; intros ->; reflexivity.
Qed.

Lemma parseData_recycling_schedule_witness :
  recyclingOnEvenWeeks Example.rules = true /\
  recyclingDay Example.rules = Js.Int 5.
Proof.
  destruct (parseData_recycling_schedule
              (Example.response "DAY" "WEDNESDAY")
              (Example.response "SERVICE_DA" "2nd MONDAY")
              (Example.response "SERVICE_DAY" "FRIDAY-B")
              Example.rules "FRIDAY-B")
    as (_ & _ & Hname);
    [vm_compute; reflexivity | vm_compute; reflexivity | vm_compute; reflexivity |].
  destruct (Hname 5%nat "Friday" "FRIDAY" "-B")
    as (Hday & _ & _ & HB & _);
    [reflexivity | reflexivity | reflexivity | right; now exists "B" |].
  split; [now apply HB | exact Hday].
Defined.




End Parsing.

(** ** Termination (claim C1) *)

Module Termination.
Import Spec.
Import Ecma EcmaFacts Moment MomentFacts.
Import HoustonScheduler HeavyDayFacts SchedulerFacts.

Lemma getCategoriesForDay_diverges fuel this d :
  loopReturns (pickupDays this) = false ->
  getCategoriesForDay fuel this d = None.
Proof.
  intros Hloop. unfold getCategoriesForDay, isJunkDay, isTreeDay.
  rewrite (isHeavyDay_partial this fuel d Hloop).
  destruct (isEvenMonth d); reflexivity.
Qed.

Lemma today_in_window now n :
  n <> 0 -> In (startOf_day now) (windowDays now n).
Proof.
  intros Hn. unfold windowDays, clone. apply in_map_iff. exists 0. split.
  - unfold add_days. destruct (startOf_day now) as [v]. simpl. f_equal. lia.
  - destruct (Z_lt_le_dec n 0) as [Hneg | Hpos].
    + rewrite (range_down n Hneg). apply in_map_iff. exists 0%nat.
      split; [reflexivity|]. apply in_seq. lia.
    + rewrite (range_up n Hpos). apply in_map_iff. exists 0%nat.
      split; [reflexivity|]. apply in_seq. lia.
Qed.

(** On the rule sets where the loop does not stop, no window but the empty
    one is ever returned. *)
Lemma getUpcomingEvents_diverges fuel this now n :
  loopReturns (pickupDays this) = false -> n <> 0 ->
  getUpcomingEvents fuel this now n = None.
Proof.
  intros Hloop Hn. unfold getUpcomingEvents. fold (windowDays now n).
  rewrite (mapOpt_None (groupEvents fuel this) _ _ (today_in_window now n Hn));
    [reflexivity|].
  unfold groupEvents. now rewrite getCategoriesForDay_diverges.
Qed.


(** C1 fails on the code. The record [3 Foo] is parsed without error to
    the ordinal 3 and the weekday [NaN]; [isHeavyDay] then never returns,
    whatever the number of iterations allowed, for any date, and neither
    does [getUpcomingEvents] for the default window of 60 days. *)
Theorem stray_weekday_never_returns :
  exists p,
    parseData (Example.response "DAY" "WEDNESDAY") Example.strayWeekday
      (Example.response "SERVICE_DAY" "FRIDAY-B") = Normal p /\
    junkWeekOfMonth p = Js.Int 3 /\ junkDay p = Js.NaN /\
    forall fuel table,
      (forall d, isHeavyDay fuel (mkScheduler p table) d = None) /\
      (forall now,
         getUpcomingEvents fuel (mkScheduler p table) now defaultNumberOfDays = None).
Proof.
  exists (mkPickupDay (Js.Int 3) (Js.Int 3) Js.NaN (Js.Int 5) true).
  split; [vm_compute; reflexivity | split; [reflexivity | split; [reflexivity|]]].
  intros fuel table. split.
  - intros d. now apply isHeavyDay_partial.
  - intros now. apply getUpcomingEvents_diverges; [reflexivity | discriminate].
Qed.

End Termination.

(** ** Windows of zero or negative length (claim C2) *)

Module NonPositiveWindow.
Import Spec.
Import Ecma EcmaFacts Moment MomentFacts.
Import HoustonScheduler HeavyDayFacts SchedulerFacts.


(** The claim fails for a negative length: asked for -3 days on Wednesday
    2024-01-03, the generator classifies that day and the two days before
    it and returns Monday's waste pickup. *)
Lemma negative_window_has_events :
  parseData (Example.response "DAY" "MONDAY") None None
  = Normal (pickupDays Example.mondayWaste) /\
  -3 <= 0 /\
  getUpcomingEvents 0 Example.mondayWaste (Example.at_ 2024 0 3 10) (-3)
  = Some [mkEvent (Example.at_ 2024 0 1 0) ["waste"] false].
Proof. split; [|split; [lia|]]; vm_compute; reflexivity. Qed.

Lemma windowDays_down now n : n < 0 ->
  windowDays now n
  = map (fun i => add_days (- Z.of_nat i) (startOf_day now)) (seq 0 (Z.to_nat (- n))).
Proof.
  intros Hn. unfold windowDays, clone. rewrite (range_down n Hn), map_map.
  reflexivity.
Qed.

Lemma sorted_run_down c k : forall s,
  StronglySorted Z.gt (map (fun i => c - Z.of_nat i) (seq s k)).
Proof.
  induction k as [|k IH]; intros s; simpl; constructor; [apply IH|].
  apply List.Forall_forall. intros x Hx.
  apply in_map_iff in Hx as (i & <- & Hi). apply in_seq in Hi. lia.
Qed.

Lemma sorted_by_day_down events :
  StronglySorted Z.gt (map (fun e => civilDay (day e)) events) ->
  StronglySorted (fun a b => earlier b a) events.
Proof.
  induction events as [|e es IH]; simpl; intros H; [constructor|].
  inversion H as [|? ? Hs Hall]; subst. constructor; [now apply IH|].
  rewrite List.Forall_forall in *. intros x Hx. unfold earlier.
  apply Z.gt_lt, Hall, in_map_iff. now exists x.
Qed.

(** C2, amended. For [numberOfDays = 0] the generator returns the empty
    sequence.  For a negative [numberOfDays = -k] it classifies the [k]
    dates today, yesterday, ... and returns exactly those that have a
    category, the latest first, each with the categories and the holiday
    flag of its date: the result is empty only when none of them has a
    category.  In both cases it returns, given enough iterations, on every
    rule set on which the heavy-pickup loop stops. *)
Theorem getUpcomingEvents_non_positive fuel this now :
  getUpcomingEvents fuel this now 0 = Some [] /\
  (forall n evs,
     n < 0 -> getUpcomingEvents fuel this now n = Some evs ->
     Z.of_nat (length evs) <= - n /\
     StronglySorted (fun a b => earlier b a) evs /\
     Forall (fun e => exists i, 0 <= i < - n /\
                        day e = add_days (- i) (startOf_day now) /\
                        civilDay (day e) = civilDay now - i /\
                        getCategoriesForDay fuel this (day e) = Some (categories e) /\
                        possibleHoliday e = isPossibleHoliday this (day e) /\
                        categories e <> []) evs /\
     (forall i cats,
        0 <= i < - n ->
        getCategoriesForDay fuel this (add_days (- i) (startOf_day now)) = Some cats ->
        cats <> [] ->
        exists e, In e evs /\ day e = add_days (- i) (startOf_day now)
                  /\ categories e = cats) /\
     (forall i,
        0 <= i < - n ->
        getCategoriesForDay fuel this (add_days (- i) (startOf_day now)) = Some [] ->
        forall e, In e evs -> day e <> add_days (- i) (startOf_day now)) /\
     (evs = [] <->
      forall i, 0 <= i < - n ->
        getCategoriesForDay fuel this (add_days (- i) (startOf_day now)) = Some [])) /\
  (forall n,
     n <= 0 -> loopReturns (pickupDays this) = true ->
     (enoughFuel (pickupDays this) <= fuel)%nat ->
     exists evs, getUpcomingEvents fuel this now n = Some evs).
Proof.
  split; [reflexivity | split].
  - intros n evs Hn H.
    pose proof (fun e => event_origin fuel this now n evs e H) as Horigin.
    assert (Hsound : Forall (fun e => exists i, 0 <= i < - n /\
                        day e = add_days (- i) (startOf_day now) /\
                        civilDay (day e) = civilDay now - i /\
                        getCategoriesForDay fuel this (day e) = Some (categories e) /\
                        possibleHoliday e = isPossibleHoliday this (day e) /\
                        categories e <> []) evs).
    { apply List.Forall_forall. intros e He.
      destruct (Horigin e He) as (Hin & Hcats & Hflag & Hcat).
      rewrite (windowDays_down now n Hn) in Hin.
      apply in_map_iff in Hin as (i & Hi & Hseq). apply in_seq in Hseq.
      exists (Z.of_nat i). split; [lia|]. split; [now symmetry|].
      split; [|split; [exact Hcats | split; [exact Hflag | exact Hcat]]].
      rewrite <- Hi, civilDay_add_days, civilDay_startOf_day. lia. }
    destruct (getUpcomingEvents_inv _ _ _ _ _ H) as (events & HF & Hevs).
    pose proof (Window.Forall2_map_day _ _ _ _ HF) as Hdays.
    rewrite (windowDays_down now n Hn) in Hdays.
    assert (Hcomplete : forall i cats,
        0 <= i < - n ->
        getCategoriesForDay fuel this (add_days (- i) (startOf_day now)) = Some cats ->
        cats <> [] ->
        exists e, In e evs /\ day e = add_days (- i) (startOf_day now)
                  /\ categories e = cats).
    { intros i cats Hi Hcats Hne.
      assert (Hin : In (add_days (- i) (startOf_day now)) (windowDays now n)).
      { rewrite (windowDays_down now n Hn). apply in_map_iff.
        exists (Z.to_nat i). split; [f_equal; lia | apply in_seq; lia]. }
      destruct (Window.Forall2_filter_surjective _ hasCategories _ _ _ HF Hin)
        as (e & _ & Hg & Hf).
      destruct (groupEvents_inv _ _ _ _ Hg) as (Hday & Hc & _).
      rewrite Hcats in Hc. injection Hc as Hc. exists e. rewrite Hevs.
      split; [|split; [exact Hday | now symmetry]].
      apply Hf. unfold hasCategories. rewrite <- Hc.
      destruct cats; [congruence | reflexivity]. }
    split; [|split; [|split; [exact Hsound | split; [exact Hcomplete | split]]]].
    + rewrite Hevs. pose proof (filter_length_le hasCategories events) as Hle.
      assert (Hlen : length events = Z.to_nat (- n)).
      { rewrite <- (length_map day events), Hdays, length_map, length_seq.
        reflexivity. }
      lia.
    + rewrite Hevs. apply Window.sorted_filter, sorted_by_day_down.
      rewrite <- (map_map day civilDay), Hdays, map_map.
      erewrite map_ext; [apply (sorted_run_down (civilDay now) (Z.to_nat (- n)) 0%nat)|].
      intros i. cbv beta. rewrite civilDay_add_days, civilDay_startOf_day. lia.
    + intros i Hi Hnone e He Hday.
      destruct (Horigin e He) as (_ & Hcats & _ & Hne).
      rewrite Hday, Hnone in Hcats. injection Hcats as Hcats. now symmetry in Hcats.
    + split.
      * intros -> i Hi.
        assert (Hin : In (add_days (- i) (startOf_day now)) (windowDays now n)).
        { rewrite (windowDays_down now n Hn). apply in_map_iff.
          exists (Z.to_nat i). split; [f_equal; lia | apply in_seq; lia]. }
        destruct (Window.Forall2_filter_surjective _ hasCategories _ _ _ HF Hin)
          as (e & _ & Hg & Hf).
        destruct (groupEvents_inv _ _ _ _ Hg) as (_ & Hc & _). rewrite Hc.
        destruct (categories e) as [|c cs] eqn:Hcats; [reflexivity|].
        exfalso. rewrite <- Hevs in Hf. apply Hf.
        unfold hasCategories. now rewrite Hcats.
      * intros Hnone. destruct evs as [|e evs]; [reflexivity|]. exfalso.
        destruct (Horigin e (or_introl eq_refl)) as (Hin & Hc & _ & Hcat).
        rewrite (windowDays_down now n Hn) in Hin.
        apply in_map_iff in Hin as (i & Hi & Hseq). apply in_seq in Hseq.
        rewrite <- Hi, (Hnone (Z.of_nat i)) in Hc by lia. congruence.
  - intros n _. apply getUpcomingEvents_total.
Qed.

Lemma getUpcomingEvents_non_positive_witness :
  getUpcomingEvents 0 Example.mondayWaste (Example.at_ 2024 0 3 10) 0 = Some [] /\
  (exists evs, getUpcomingEvents 0 Example.mondayWaste (Example.at_ 2024 0 3 10) (-3)
               = Some evs) /\
  exists e, In e [mkEvent (Example.at_ 2024 0 1 0) ["waste"] false] /\
            day e = add_days (- 2) (startOf_day (Example.at_ 2024 0 3 10)) /\
            categories e = ["waste"].
Proof.
  destruct (getUpcomingEvents_non_positive 0 Example.mondayWaste (Example.at_ 2024 0 3 10))
    as (Hzero & Hneg & Htotal).
  split; [exact Hzero|]. split.
  - apply Htotal; [lia | vm_compute; reflexivity | vm_compute; lia].
  - destruct (Hneg (-3) [mkEvent (Example.at_ 2024 0 1 0) ["waste"] false])
      as (_ & _ & _ & Hcomplete & _); [lia | vm_compute; reflexivity |].
    apply (Hcomplete 2 ["waste"]); [lia | vm_compute; reflexivity | discriminate].
Defined.

End NonPositiveWindow.

(** ** Week numbers *)

Module WeekFacts.
Import Spec.
Import Ecma EcmaFacts Moment MomentFacts HoustonScheduler.

Lemma MakeDay_january_first y : MakeDay y 0 1 = DayFromYear y.
Proof.
  unfold MakeDay. change (0 / 12) with 0. change (0 mod 12) with 0.
  month_table. rewrite !Z.add_0_r. lia.
Qed.

Lemma firstWeekOffset_en y : firstWeekOffset y en_dow en_doy = - WeekDay (DayFromYear y).
Proof.
  unfold firstWeekOffset, en_dow, en_doy. change (7 + 0 - 6) with 1.
  rewrite MakeDay_january_first. pose proof (WeekDay_range (DayFromYear y)). zdiv.
Qed.

Lemma weeksInYear_en y :
  7 * weeksInYear y en_dow en_doy = weekOneStart (y + 1) - weekOneStart y.
Proof.
  unfold weeksInYear. rewrite !firstWeekOffset_en.
  unfold weekOneStart. rewrite DayFromYear_succ. unfold WeekDay.
  generalize (DayFromYear y) (DaysInYear y). intros J L. zdiv.
Qed.

Lemma weeks_spec m :
  weeks m = if weekOneStart (year m + 1) <=? civilDay m then 1
            else (civilDay m - weekOneStart (year m)) / 7 + 1.
Proof.
  unfold weeks, weekOfYear. rewrite firstWeekOffset_en.
  pose proof (weeksInYear_en (year m)) as HW.
  pose proof (YearFromDay_spec (civilDay m)) as HY. fold (year m) in HY.
  unfold dayOfYear.
  set (W := weeksInYear (year m) en_dow en_doy) in *.
  set (W0 := weeksInYear (year m - 1) en_dow en_doy) in *.
  unfold weekOneStart in *.
  pose proof (WeekDay_range (DayFromYear (year m))).
  pose proof (WeekDay_range (DayFromYear (year m + 1))).
  generalize dependent (WeekDay (DayFromYear (year m))).
  generalize dependent (WeekDay (DayFromYear (year m + 1))).
  generalize dependent (DayFromYear (year m)).
  generalize dependent (DayFromYear (year m + 1)).
  generalize dependent (civilDay m). clearbody W W0.
  intros D J' J HY w' Hw' w HW Hw.
  destruct (J' - w' <=? D) eqn:E; bool_to_Z.
  - replace ((D - J + 1 - - w - 1) / 7 + 1 <? 1) with false by (symmetry; apply Z.ltb_ge; zdiv).
    replace ((D - J + 1 - - w - 1) / 7 + 1 >? W) with true by (symmetry; apply Z.gtb_lt; zdiv).
    zdiv.
  - replace ((D - J + 1 - - w - 1) / 7 + 1 <? 1) with false by (symmetry; apply Z.ltb_ge; zdiv).
    replace ((D - J + 1 - - w - 1) / 7 + 1 >? W) with false.
    + zdiv.
    + symmetry. rewrite Z.gtb_ltb. apply Z.ltb_ge. zdiv.
Qed.

Lemma weekOneStart_range y : DayFromYear y - 6 <= weekOneStart y <= DayFromYear y.
Proof. unfold weekOneStart. pose proof (WeekDay_range (DayFromYear y)). lia. Qed.

Lemma year_add_week m :
  year (add_days 7 m) = year m \/
  (year (add_days 7 m) = year m + 1 /\ DayFromYear (year m + 1) <= civilDay m + 7).
Proof.
  unfold year. rewrite civilDay_add_days.
  pose proof (YearFromDay_spec (civilDay m)) as [Hlo Hhi].
  destruct (Z_lt_le_dec (civilDay m + 7) (DayFromYear (YearFromDay (civilDay m) + 1)))
    as [Hin | Hout].
  - left. apply YearFromDay_unique. lia.
  - right. split; [|exact Hout]. apply YearFromDay_unique.
    rewrite (DayFromYear_succ (YearFromDay (civilDay m) + 1)).
    destruct (DaysInYear_cases (YearFromDay (civilDay m) + 1)); lia.
Qed.

(** A week later the week number is one more, or the numbering has
    restarted. *)
Lemma weeks_next_week m :
  weeks (add_days 7 m) = weeks m + 1 \/ weeks (add_days 7 m) = 1.
Proof.
  rewrite (weeks_spec (add_days 7 m)), (weeks_spec m), civilDay_add_days.
  pose proof (YearFromDay_spec (civilDay m)) as HY. fold (year m) in HY.
  pose proof (weeksInYear_en (year m)) as HW.
  pose proof (weekOneStart_range (year m)) as H0.
  pose proof (weekOneStart_range (year m + 1)) as H1.
  pose proof (weekOneStart_range (year m + 1 + 1)) as H2.
  pose proof (DayFromYear_succ (year m + 1)) as HJ.
  pose proof (DaysInYear_cases (year m + 1)) as HL.
  destruct (year_add_week m) as [-> | [-> Hnext]].
  - destruct (weekOneStart (year m + 1) <=? civilDay m + 7) eqn:E; [now right|].
    left. bool_to_Z.
    replace (weekOneStart (year m + 1) <=? civilDay m) with false
      by (symmetry; apply Z.leb_gt; lia).
    zdiv.
  - replace (weekOneStart (year m + 1 + 1) <=? civilDay m + 7) with false
      by (symmetry; apply Z.leb_gt; lia).
    destruct (weekOneStart (year m + 1) <=? civilDay m) eqn:E; bool_to_Z.
    + left. zdiv.
    + right. zdiv.
Qed.

Lemma day_add_week m : Moment.day (add_days 7 m) = Moment.day m.
Proof. rewrite day_add_days. unfold Moment.day, WeekDay. zdiv. Qed.

(** As long as the week numbers go on counting, recycling days are two
    weeks apart. *)
Lemma recycling_fortnightly this m :
  weeks (add_days 7 m) <> 1 -> weeks (add_days 14 m) <> 1 ->
  isRecyclingDay this (add_days 14 m) = isRecyclingDay this m /\
  (isRecyclingDay this m = true -> isRecyclingDay this (add_days 7 m) = false) /\
  (isRecyclingDay this (add_days 7 m) = true -> isRecyclingDay this m = false).
Proof.
  intros H7 H14.
  assert (E14 : add_days 14 m = add_days 7 (add_days 7 m))
    by (now rewrite add_days_add_days).
  rewrite E14 in *.
  destruct (weeks_next_week m) as [W7 | W7]; [|contradiction].
  destruct (weeks_next_week (add_days 7 m)) as [W14 | W14]; [|contradiction].
  unfold isRecyclingDay. rewrite !day_add_week, W14, W7.
  assert (P1 : ((weeks m + 1) mod 2 =? 0) = negb (weeks m mod 2 =? 0)).
  { destruct (weeks m mod 2 =? 0) eqn:E; bool_to_Z; cbn [negb]; bool_to_Z; zdiv. }
  assert (P2 : ((weeks m + 1 + 1) mod 2 =? 0) = (weeks m mod 2 =? 0)).
  { destruct (weeks m mod 2 =? 0) eqn:E; bool_to_Z; zdiv. }
  rewrite P1, P2.
  destruct (recyclingOnEvenWeeks (pickupDays this)), (weeks m mod 2 =? 0),
    (Js.eq (Js.Int (Moment.day m)) (recyclingDay (pickupDays this)));
    simpl; auto.
Qed.

End WeekFacts.

(** ** Recycling across the turn of a year (claim C5) *)

Module Recycling.
Import Moment HoustonScheduler.


(** C5 fails on the code. Recycling days are two weeks apart only while
    the week numbers go on counting ([WeekFacts.recycling_fortnightly]);
    they restart at 1 after week 53 of 2016, so two weeks in a row are odd:
    for the record [FRIDAY-A] and the 14 days from 2016-12-25, recycling
    falls on Friday 2016-12-30 and again on Friday 2017-01-06, seven days
    later. *)
Theorem recycling_in_consecutive_weeks :
  parseData None None (Example.response "SERVICE_DAY" "FRIDAY-A") = Normal Example.fridayA /\
  weeks (Example.at_ 2016 11 30 0) = 53 /\
  weeks (Example.at_ 2017 0 6 0) = 1 /\
  getUpcomingEvents 0 (mkScheduler Example.fridayA []) (Example.at_ 2016 11 25 9) 14
  = Some [mkEvent (Example.at_ 2016 11 30 0) ["recycling"] false;
          mkEvent (Example.at_ 2017 0 6 0) ["recycling"] false] /\
  civilDay (Example.at_ 2017 0 6 0) - civilDay (Example.at_ 2016 11 30 0) = 7.
Proof. repeat split; vm_compute; reflexivity. Qed.

End Recycling.

(** * Further properties of the code *)

(** ** Strings *)

Module TextFacts.
Import Spec.
Import JsString JsStringFacts ParseFacts Vocabulary.

Lemma append_empty_r s : s ++ "" = s.
Proof. induction s as [|c s IH]; [reflexivity|]. now rewrite app_String, IH. Qed.

Lemma length_append a b :
  String.length (a ++ b) = (String.length a + String.length b)%nat.
Proof.
  induction a as [|c a IH]; [reflexivity|]. rewrite app_String. simpl. now rewrite IH.
Qed.

Lemma append_inj_suffix a b a' b' :
  a ++ b = a' ++ b' -> String.length b = String.length b' -> a = a' /\ b = b'.
Proof.
  revert a'. induction a as [|c a IH]; intros [|c' a'] H Hlen.
  - now rewrite !app_empty in H.
  - rewrite app_empty in H. apply (f_equal String.length) in H.
    rewrite length_append in H. simpl in H. lia.
  - rewrite app_empty in H. apply (f_equal String.length) in H.
    rewrite length_append in H. simpl in H. lia.
  - rewrite !app_String in H. injection H as -> H.
    destruct (IH a' H Hlen) as [-> ->]. now split.
Qed.

Lemma substring_skip pre rest :
  substring (String.length pre) (String.length rest) (pre ++ rest) = rest.
Proof.
  induction pre as [|c pre IH].
  - rewrite app_empty. simpl. induction rest as [|c rest IH]; [reflexivity|].
    simpl. now rewrite IH.
  - rewrite app_String. simpl. exact IH.
Qed.

Lemma length_substring n m s : (String.length (substring n m s) <= m)%nat.
Proof.
  revert n m. induction s as [|c s IH]; intros [|n] [|m]; simpl; try lia.
  - specialize (IH 0%nat m). lia.
  - apply IH.
  - apply IH.
Qed.

End TextFacts.

(** ** Formatted days (App.ts) *)

Module FormatFacts.
Import Spec.
Import Ecma EcmaFacts Moment MomentFacts JsString JsStringFacts MomentFormat Vocabulary TextFacts.

Lemma digitChar_spec d : 0 <= d < 10 ->
  isDigit (digitChar d) = true /\ digitValue (digitChar d) = d /\
  isWhiteSpace (digitChar d) = false /\
  digitChar d <> "-"%char /\ digitChar d <> "+"%char.
Proof.
  intros Hd.
  assert (Hc : d = 0 \/ d = 1 \/ d = 2 \/ d = 3 \/ d = 4 \/ d = 5 \/ d = 6 \/
               d = 7 \/ d = 8 \/ d = 9) by lia.
  repeat destruct Hc as [-> | Hc]; try subst d; vm_compute; repeat split; congruence.
Qed.

Lemma digits_decimalOnto fuel : forall n acc a,
  0 <= n < 2 ^ (Z.of_nat fuel + 1) ->
  digits (decimalOnto fuel n acc) a
  = digits acc (Some (default 0 a * scale fuel n + n)).
Proof.
  induction fuel as [|fuel IH]; intros n acc a Hn.
  - change (2 ^ (Z.of_nat 0 + 1)) with 2 in Hn.
    cbn [decimalOnto scale digits].
    replace (n mod 10) with n by zdiv.
    destruct (digitChar_spec n ltac:(lia)) as (-> & -> & _).
    do 2 f_equal. generalize (default 0 a). intros; lia.
  - cbn [decimalOnto scale].
    destruct (n <? 10) eqn:E; bool_to_Z.
    + cbn [digits]. replace (n mod 10) with n by zdiv.
      destruct (digitChar_spec n ltac:(lia)) as (-> & -> & _).
      do 2 f_equal. generalize (default 0 a). intros; lia.
    + rewrite IH.
      * cbn [digits]. destruct (digitChar_spec (n mod 10) ltac:(zdiv)) as (-> & -> & _).
        do 2 f_equal. cbn [default].
        assert (Hq : n = 10 * (n / 10) + n mod 10) by zdiv.
        set (q := n / 10) in *. set (r := n mod 10) in *. clearbody q r.
        generalize (default 0 a) (scale fuel q). intros x y. unfold id. rewrite Hq. ring.
      * replace (Z.of_nat (S fuel) + 1) with (Z.succ (Z.of_nat fuel + 1)) in Hn by lia.
        rewrite Z.pow_succ_r in Hn by lia. zdiv.
Qed.

Lemma log2_fuel n : 0 <= n -> 0 <= n < 2 ^ (Z.of_nat (Z.to_nat (Z.log2 n)) + 1).
Proof.
  intros Hn. rewrite Z2Nat.id by apply Z.log2_nonneg.
  destruct (Z.eq_dec n 0) as [-> | Hpos]; [simpl; lia|].
  pose proof (Z.log2_spec n ltac:(lia)) as H.
  replace (Z.log2 n + 1) with (Z.succ (Z.log2 n)) by lia. lia.
Qed.

(** Reading the digits written gives the number back. *)
Lemma digits_decimal n acc : 0 <= n ->
  digits (decimal n ++ acc) None = digits acc (Some n).
Proof.
  intros Hn. unfold decimal.
  assert (Happ : forall fuel m a, decimalOnto fuel m a ++ acc = decimalOnto fuel m (a ++ acc)).
  { induction fuel as [|fuel IH]; intros m a; cbn [decimalOnto].
    - apply app_String.
    - destruct (m <? 10); [apply app_String|]. now rewrite IH, app_String. }
  rewrite Happ, app_empty, digits_decimalOnto by (apply log2_fuel; exact Hn).
  do 2 f_equal.
Qed.

Lemma decimal_head n : exists d rest, decimal n = String (digitChar d) rest /\ 0 <= d < 10.
Proof.
  unfold decimal. generalize (Z.to_nat (Z.log2 n)) as fuel, "" as acc.
  intros fuel. revert n. induction fuel as [|fuel IH]; intros n acc; cbn [decimalOnto].
  - exists (n mod 10), acc. split; [reflexivity | zdiv].
  - destruct (n <? 10); [exists (n mod 10), acc; split; [reflexivity | zdiv]|].
    apply IH.
Qed.

Lemma digits_zeros k s a : digits (zeros k ++ s) (Some a) = digits s (Some (a * 10 ^ Z.of_nat k)).
Proof.
  revert a. induction k as [|k IH]; intros a.
  - rewrite app_empty. do 2 f_equal. simpl. lia.
  - cbn [zeros]. rewrite app_String. cbn [digits].
    change (isDigit "0") with true. cbv iota. rewrite IH. do 2 f_equal.
    change (digitValue "0") with 0. rewrite Nat2Z.inj_succ, Z.pow_succ_r by lia.
    cbn [default]. unfold id. ring.
Qed.

Lemma digits_filled k n : 0 <= n ->
  digits (zeros k ++ decimal n) None = Some n.
Proof.
  intros Hn.
  assert (Hnone : digits (decimal n) None = Some n).
  { rewrite <- (append_empty_r (decimal n)), digits_decimal by exact Hn. reflexivity. }
  destruct k as [|k]; [now rewrite app_empty|].
  cbn [zeros]. rewrite app_String. cbn [digits].
  change (isDigit "0") with true. cbv iota. change (digitValue "0") with 0.
  cbn [default]. unfold id. replace (10 * 0 + 0) with 0 by lia.
  rewrite digits_zeros. replace (0 * 10 ^ Z.of_nat k) with 0 by lia.
  rewrite <- Hnone. destruct (decimal_head n) as (d & rest & -> & Hd).
  cbn [digits]. now destruct (digitChar_spec d Hd) as (-> & _).
Qed.

(** [parseInt] reads back what [zeroFill] writes. *)
Lemma parseInt_zeroFill n k : parseInt (zeroFill n k) = Js.Int n.
Proof.
  unfold zeroFill.
  set (fill := zeros (k - String.length (decimal (Z.abs n))) ++ decimal (Z.abs n)).
  assert (Hfill : digits fill None = Some (Z.abs n)) by (apply digits_filled; lia).
  assert (Hhead : exists d rest, fill = String (digitChar d) rest /\ 0 <= d < 10).
  { unfold fill. destruct (k - String.length (decimal (Z.abs n)))%nat as [|z].
    - rewrite app_empty. apply decimal_head.
    - exists 0, (zeros z ++ decimal (Z.abs n)). split; [reflexivity | lia]. }
  destruct Hhead as (d & rest & Hd & Hrange).
  destruct (digitChar_spec d Hrange) as (_ & _ & Hws & Hminus & Hplus).
  destruct (0 <=? n) eqn:E; bool_to_Z.
  - rewrite app_empty. unfold parseInt. rewrite Hd. cbn [trimStart]. rewrite Hws.
    rewrite <- Hd.
    assert (Hsign : (match fill with
                     | String "-" r => (-1, r)
                     | String "+" r => (1, r)
                     | _ => (1, fill)
                     end) = (1, fill)).
    { rewrite Hd. destruct (digitChar d) as [[] [] [] [] [] [] [] []];
        try reflexivity; congruence. }
    rewrite Hd in Hsign |- *. rewrite Hsign. rewrite <- Hd, Hfill. f_equal. lia.
  - unfold parseInt. rewrite app_String, app_empty. cbn [trimStart].
    change (isWhiteSpace "-") with false. cbv iota. rewrite Hfill. f_equal. lia.
Qed.

Lemma zeroFill_inj n m k j : zeroFill n k = zeroFill m j -> n = m.
Proof.
  intros H. apply (f_equal parseInt) in H. rewrite !parseInt_zeroFill in H.
  congruence.
Qed.

Lemma length_zeros k : String.length (zeros k) = k.
Proof. induction k as [|k IH]; simpl; [reflexivity | now rewrite IH]. Qed.

Lemma length_decimalOnto fuel : forall n acc k,
  0 <= n < 10 ^ Z.of_nat k -> (1 <= k)%nat ->
  (String.length acc < String.length (decimalOnto fuel n acc)
   <= k + String.length acc)%nat.
Proof.
  induction fuel as [|fuel IH]; intros n acc k Hn Hk; cbn [decimalOnto].
  - simpl. lia.
  - destruct (n <? 10) eqn:E; bool_to_Z; [simpl; lia|].
    destruct k as [|[|k]]; [lia | simpl in Hn; lia |].
    specialize (IH (n / 10) (String (digitChar (n mod 10)) acc) (S k)).
    rewrite !Nat2Z.inj_succ, Z.pow_succ_r in Hn by lia.
    rewrite Nat2Z.inj_succ in IH. simpl String.length in IH.
    assert (H : 0 <= n / 10 < 10 ^ Z.succ (Z.of_nat k)).
    { generalize dependent (10 ^ Z.succ (Z.of_nat k)). intros. zdiv. }
    specialize (IH H ltac:(lia)). lia.
Qed.

(** A number that fits in [k] digits is written with exactly [k]. *)
Lemma length_zeroFill v k :
  0 <= v < 10 ^ Z.of_nat k -> (1 <= k)%nat -> String.length (zeroFill v k) = k.
Proof.
  intros Hv Hk. unfold zeroFill.
  replace (0 <=? v) with true by (symmetry; apply Z.leb_le; lia).
  rewrite app_empty, length_append, length_zeros, Z.abs_eq by lia.
  pose proof (length_decimalOnto (Z.to_nat (Z.log2 v)) v "" k Hv Hk) as H.
  fold (decimal v) in H. simpl in H. lia.
Qed.

Lemma month_date_texts m :
  String.length (zeroFill (month m + 1) 2) = 2%nat /\
  String.length (zeroFill (date m) 2) = 2%nat.
Proof.
  pose proof (MonthFromDay_range (civilDay m)) as Hm.
  pose proof (DateFromDay_range (civilDay m)) as Hd.
  pose proof (CalendarFacts.DaysInMonth_range (YearFromDay (civilDay m)) _ Hm) as Hl.
  unfold month, date. change (10 ^ Z.of_nat 2) with 100 in *.
  split; apply length_zeroFill; change (10 ^ Z.of_nat 2) with 100; lia.
Qed.

Lemma format_parts a b :
  format_YYYY_MM_DD a = format_YYYY_MM_DD b ->
  year a = year b /\ month a = month b /\ date a = date b.
Proof.
  unfold format_YYYY_MM_DD. intros H.
  destruct (month_date_texts a) as [Ha1 Ha2], (month_date_texts b) as [Hb1 Hb2].
  apply append_inj_suffix in H as [Hy H].
  2:{ rewrite !app_String, !app_empty. simpl.
      rewrite !length_append. simpl. lia. }
  rewrite !app_String, !app_empty in H. injection H as H.
  apply append_inj_suffix in H as [Hm H]; [|simpl; lia].
  injection H as H.
  apply zeroFill_inj in Hy, Hm, H. repeat split; lia.
Qed.

Lemma format_civilDay a b :
  format_YYYY_MM_DD a = format_YYYY_MM_DD b <-> civilDay a = civilDay b.
Proof.
  split.
  - intros H. apply format_parts in H as (Hy & Hm & Hd).
    rewrite <- (MakeDay_fields (civilDay a)), <- (MakeDay_fields (civilDay b)).
    unfold year, month, date in *. congruence.
  - intros H. unfold format_YYYY_MM_DD, year, month, date. now rewrite H.
Qed.

(** X1. Two moments are written as the same [YYYY-MM-DD] text exactly when
    they lie on the same calendar day, which is also when [isSame(_, 'day')]
    holds; in the years 0 to 9999 the text has ten characters. *)
Theorem format_same_day a b :
  (format_YYYY_MM_DD a = format_YYYY_MM_DD b <-> civilDay a = civilDay b) /\
  (format_YYYY_MM_DD a = format_YYYY_MM_DD b <-> isSame_day a b = true) /\
  (0 <= year a <= 9999 -> String.length (format_YYYY_MM_DD a) = 10%nat).
Proof.
  split; [apply format_civilDay|]. split.
  - rewrite isSame_day_civilDay, Z.eqb_eq. apply format_civilDay.
  - intros Hy. unfold format_YYYY_MM_DD.
    destruct (month_date_texts a) as [Hm Hd].
    rewrite !length_append, Hm, Hd, length_zeroFill; [reflexivity | | lia].
    change (10 ^ Z.of_nat 4) with 10000. lia.
Qed.

Lemma format_same_day_witness :
  String.length (format_YYYY_MM_DD Example.now) = 10%nat.
Proof.
  destruct (format_same_day Example.now Example.now) as (_ & _ & H).
  apply H. vm_compute. split; discriminate.
Defined.

End FormatFacts.

(** ** What [parseData] makes of the records *)

Module Records.
Import Spec.
Import JsString JsStringFacts Moment.
Import HoustonScheduler SchedulerFacts ParseFacts WeekdayParser HeavyDayFacts.
Import Calendar Vocabulary TextFacts.

(** [substr(k)] drops a prefix of [k] characters. *)
Lemma substr_skip pre rest :
  substr (pre ++ rest) (Z.of_nat (String.length pre)) None = rest.
Proof.
  unfold substr. rewrite length_append, Nat2Z.inj_add.
  replace (Z.of_nat (String.length pre) <? 0) with false by (symmetry; apply Z.ltb_ge; lia).
  rewrite Z.min_l by lia.
  replace (Z.of_nat (String.length pre) + Z.of_nat (String.length rest)
           - Z.of_nat (String.length pre)) with (Z.of_nat (String.length rest)) by lia.
  rewrite !Nat2Z.id. apply substring_skip.
Qed.

(** [substr(-1)] is at most the last character. *)
Lemma substr_last s : (String.length (substr s (-1) None) <= 1)%nat.
Proof.
  unfold substr. change (-1 <? 0) with true. cbv iota.
  set (size := Z.of_nat (String.length s)).
  assert (Hn : (Z.to_nat (size - Z.max (size + -1) 0) <= 1)%nat) by lia.
  pose proof (length_substring (Z.to_nat (Z.max (size + -1) 0))
                (Z.to_nat (size - Z.max (size + -1) 0)) s). lia.
Qed.

Lemma indexOfFrom_space pre post i :
  all notSpace pre = true ->
  indexOfFrom (pre ++ String " " post) " " i = i + Z.of_nat (String.length pre).
Proof.
  revert i. induction pre as [|c pre IH]; intros i Hall.
  - rewrite app_empty. simpl. lia.
  - cbn [all] in Hall. apply andb_true_iff in Hall as [Hc Hall].
    rewrite app_String. cbn [indexOfFrom startsWith].
    unfold notSpace in Hc. apply negb_true_iff in Hc.
    rewrite Ascii.eqb_sym in Hc. rewrite Hc.
    rewrite IH by exact Hall. cbn [String.length]. lia.
Qed.

Lemma indexOfFrom_no_space s i : all notSpace s = true -> indexOfFrom s " " i = -1.
Proof.
  revert i. induction s as [|c s IH]; intros i Hall; [reflexivity|].
  cbn [all] in Hall. apply andb_true_iff in Hall as [Hc Hall].
  cbn [indexOfFrom startsWith].
  unfold notSpace in Hc. apply negb_true_iff in Hc.
  rewrite Ascii.eqb_sym in Hc. rewrite Hc. now apply IH.
Qed.

Lemma parseInt_digit c : isDigit c = true -> parseInt (String c "") = Js.Int (digitValue c).
Proof.
  destruct c as [[] [] [] [] [] [] [] []]; try discriminate; reflexivity.
Qed.

Lemma parseInt_digit_range c : isDigit c = true -> 0 <= digitValue c <= 9.
Proof.
  destruct c as [[] [] [] [] [] [] [] []]; try discriminate; vm_compute;
    split; discriminate.
Qed.

(** No word of one character starts like a weekday. *)
Lemma parse_dddd_day_short s : (String.length s <= 1)%nat -> parse_dddd_day s = Js.NaN.
Proof.
  destruct s as [|c [|c' s]]; [reflexivity | | simpl; lia].
  intros _. destruct c as [[] [] [] [] [] [] [] []]; reflexivity.
Qed.

(** The parser skips a space before the word. *)
Lemma parse_dddd_day_space s : parse_dddd_day (String " " s) = parse_dddd_day s.
Proof. reflexivity. Qed.

Lemma isValidData_record a others : isValidData (record a others) = true.
Proof. reflexivity. Qed.

Lemma attribute_record a others field : attribute (record a others) field = a !! field.
Proof. reflexivity. Qed.

(** [parseData] sees of a record only whether it is valid and the field
    named for its map. *)
Lemma parseData_ext w j r w' j' r' :
  isValidData w = isValidData w' -> attribute w "DAY" = attribute w' "DAY" ->
  isValidData j = isValidData j' ->
  attribute j "SERVICE_DA" = attribute j' "SERVICE_DA" ->
  isValidData r = isValidData r' ->
  attribute r "SERVICE_DAY" = attribute r' "SERVICE_DAY" ->
  parseData w j r = parseData w' j' r'.
Proof.
  intros Hw Hwa Hj Hja Hr Hra. unfold parseData.
  now rewrite Hw, Hwa, Hj, Hja, Hr, Hra.
Qed.



(** X3. The result of [parseData] depends on the first feature of each
    answer only, and there on the field named for its map: further
    features, and attributes under other names, change nothing. *)
Theorem parseData_reads_named_fields a b c fs gs hs k1 v1 k2 v2 k3 v3 :
  k1 <> "DAY" -> k2 <> "SERVICE_DA" -> k3 <> "SERVICE_DAY" ->
  parseData (record (<[k1:=v1]> a) fs) (record (<[k2:=v2]> b) gs)
    (record (<[k3:=v3]> c) hs)
  = parseData (record a []) (record b []) (record c []).
Proof.
  intros H1 H2 H3. apply parseData_ext; try reflexivity;
    rewrite !attribute_record; now apply lookup_insert_ne.
Qed.

Lemma parseData_reads_named_fields_witness :
  "OBJECTID" <> "DAY" /\ "OBJECTID" <> "SERVICE_DA" /\ "OBJECTID" <> "SERVICE_DAY" /\
  parseData (record (<["OBJECTID":="7"]> {[ "DAY" := "WEDNESDAY" ]}) [mkFeature None])
    (record (<["OBJECTID":="8"]> {[ "SERVICE_DA" := "2nd MONDAY" ]}) [])
    (record (<["OBJECTID":="9"]> {[ "SERVICE_DAY" := "FRIDAY-B" ]}) [])
  = parseData (record {[ "DAY" := "WEDNESDAY" ]} [])
      (record {[ "SERVICE_DA" := "2nd MONDAY" ]} [])
      (record {[ "SERVICE_DAY" := "FRIDAY-B" ]} []).
Proof.
  split; [discriminate|]. split; [discriminate|]. split; [discriminate|].
  apply (parseData_reads_named_fields _ _ _ [mkFeature None] [] []); discriminate.
Defined.

(** A heavy-pickup text made of a digit, letters, a space and a weekday. *)
Lemma parse_heavy_text c suffix spelled i name :
  isDigit c = true -> all notSpace suffix = true ->
  nth_error weekdays i = Some name -> toLowerCase spelled = toLowerCase name ->
  let s := String c (suffix ++ String " " spelled) in
  parseInt (substr s 0 (Some 1)) = Js.Int (digitValue c) /\
  getDayIndex (Some (substr s (indexOf s " ") None)) = Js.Int (Z.of_nat i).
Proof.
  intros Hc Hsuffix Hi Hlow s. split.
  - unfold s. rewrite substr_first. now apply parseInt_digit.
  - assert (Hpre : all notSpace (String c suffix) = true).
    { cbn [all]. rewrite Hsuffix, andb_true_r.
      destruct c as [[] [] [] [] [] [] [] []]; try discriminate; reflexivity. }
    assert (Hs : s = String c suffix ++ String " " spelled) by (now rewrite app_String).
    unfold indexOf. rewrite Hs, indexOfFrom_space by exact Hpre.
    rewrite Z.add_0_l, substr_skip. unfold getDayIndex. cbn [default].
    unfold id. rewrite parse_dddd_day_space.
    now destruct (parse_dddd_day_name i name spelled Hi Hlow).
Qed.

(** X4. A heavy-pickup text of the form digit, letters, space, weekday name
    (in any case), such as [2nd MONDAY], is parsed to that ordinal and that
    weekday; for an ordinal from 1 on the heavy days are then exactly the
    dates that are the ordinal-th such weekday of their month. *)
Theorem heavy_record_parsed w j r p c suffix spelled i name :
  parseData w j r = Normal p -> isValidData j = true ->
  attribute j "SERVICE_DA" = Some (String c (suffix ++ String " " spelled)) ->
  isDigit c = true -> all notSpace suffix = true ->
  nth_error weekdays i = Some name -> toLowerCase spelled = toLowerCase name ->
  junkWeekOfMonth p = Js.Int (digitValue c) /\
  junkDay p = Js.Int (Z.of_nat i) /\
  loopReturns p = true /\
  (1 <= digitValue c ->
   forall table fuel d, (Z.to_nat (7 * digitValue c) <= fuel)%nat ->
     (isHeavyDay fuel (mkScheduler p table) d = Some true
      <-> isNthOccurrence (Z.of_nat i) (digitValue c) d) /\
     (isHeavyDay fuel (mkScheduler p table) d = Some false
      <-> ~ isNthOccurrence (Z.of_nat i) (digitValue c) d)).
Proof.
  intros Hp Hj Hs Hc Hsuffix Hi Hlow.
  apply parseData_junk in Hp. rewrite Hj in Hp.
  destruct Hp as (s & Hs' & HN & Hwd). rewrite Hs in Hs'. injection Hs' as <-.
  destruct (parse_heavy_text c suffix spelled i name Hc Hsuffix Hi Hlow) as [HN' Hwd'].
  cbv zeta in HN', Hwd'. rewrite HN' in HN. rewrite Hwd' in Hwd.
  assert (Hrange : 0 <= Z.of_nat i <= 6).
  { assert (Hlt : (i < List.length weekdays)%nat)
      by (apply List.nth_error_Some; congruence).
    change (List.length weekdays) with 7%nat in Hlt. lia. }
  split; [exact HN|]. split; [exact Hwd|]. split.
  - unfold loopReturns. rewrite Hwd.
    replace (0 <=? Z.of_nat i) with true by (symmetry; apply Z.leb_le; lia).
    replace (Z.of_nat i <=? 6) with true by (symmetry; apply Z.leb_le; lia).
    apply orb_true_r.
  - intros HN1 table fuel d Hfuel.
    apply (isHeavyDay_nth (mkScheduler p table) (digitValue c) (Z.of_nat i));
      assumption.
Qed.

Lemma heavy_record_parsed_witness :
  junkWeekOfMonth Example.rules = Js.Int (digitValue "2") /\
  junkDay Example.rules = Js.Int (Z.of_nat 1) /\
  loopReturns Example.rules = true.
Proof.
  destruct (heavy_record_parsed
              (Example.response "DAY" "WEDNESDAY")
              (Example.response "SERVICE_DA" "2nd MONDAY")
              (Example.response "SERVICE_DAY" "FRIDAY-B")
              Example.rules "2" "nd" "MONDAY" 1 "Monday")
    as (H1 & H2 & H3 & _); try reflexivity.
  split; [exact H1|]. split; [exact H2 | exact H3].
Defined.

(** X5. A heavy-pickup text without a space has no weekday: [indexOf]
    gives -1, [substr(-1)] the last character, which is no weekday, so that
    the weekday is [NaN]; when the text starts with a digit from 1 to 9 the
    loop of [isHeavyDay] never ends and no window other than the empty one
    is ever returned. *)
Theorem heavy_record_without_space w j r p s :
  parseData w j r = Normal p -> isValidData j = true ->
  attribute j "SERVICE_DA" = Some s -> all notSpace s = true ->
  junkDay p = Js.NaN /\
  (Js.lt (Js.Int 0) (junkWeekOfMonth p) = true ->
   forall table fuel,
     (forall d, isHeavyDay fuel (mkScheduler p table) d = None) /\
     (forall now n, n <> 0 ->
        getUpcomingEvents fuel (mkScheduler p table) now n = None)).
Proof.
  intros Hp Hj Hs Hall.
  apply parseData_junk in Hp. rewrite Hj in Hp.
  destruct Hp as (s' & Hs' & HN & Hwd). rewrite Hs in Hs'. injection Hs' as <-.
  unfold indexOf in Hwd. rewrite indexOfFrom_no_space in Hwd by exact Hall.
  unfold getDayIndex in Hwd. cbn [default] in Hwd. unfold id in Hwd.
  rewrite parse_dddd_day_short in Hwd by apply substr_last.
  split; [exact Hwd|]. intros Hpos table fuel.
  assert (Hloop : loopReturns (pickupDays (mkScheduler p table)) = false).
  { cbn [pickupDays]. unfold loopReturns. now rewrite Hpos, Hwd. }
  split.
  - intros d. now apply isHeavyDay_partial.
  - intros now n Hn. now apply Termination.getUpcomingEvents_diverges.
Qed.

Lemma heavy_record_without_space_witness :
  junkDay (mkPickupDay (Js.Int (-1)) (Js.Int 2) Js.NaN (Js.Int (-1)) false) = Js.NaN /\
  getUpcomingEvents 100
    (mkScheduler (mkPickupDay (Js.Int (-1)) (Js.Int 2) Js.NaN (Js.Int (-1)) false) [])
    Example.now 60 = None.
Proof.
  destruct (heavy_record_without_space None
              (Example.response "SERVICE_DA" "2ndMONDAY") None
              (mkPickupDay (Js.Int (-1)) (Js.Int 2) Js.NaN (Js.Int (-1)) false)
              "2ndMONDAY") as [H1 H2]; try reflexivity.
  split; [exact H1|].
  destruct (H2 eq_refl [] 100%nat) as [_ H3]. apply H3. discriminate.
Defined.

End Records.

(** ** The weekly and the monthly pickups *)

Module Schedule.
Import Spec.
Import Ecma EcmaFacts Moment MomentFacts.
Import HoustonScheduler SchedulerFacts ParseFacts HeavyDayFacts.
Import Calendar CalendarFacts Vocabulary.

Lemma mapOpt_map {A B} (f : A -> option B) (g : A -> B) l :
  (forall x, In x l -> f x = Some (g x)) -> mapOpt f l = Some (map g l).
Proof.
  induction l as [|x l IH]; intros H; [reflexivity|].
  cbn [mapOpt map]. rewrite (H x) by now left.
  rewrite IH by (intros y Hy; apply H; now right). reflexivity.
Qed.

Lemma isWasteDay_weekday this wd d :
  wasteDay (pickupDays this) = Js.Int wd ->
  isWasteDay this d = (Moment.day d =? wd).
Proof. intros H. unfold isWasteDay. now rewrite H. Qed.

Lemma isWasteDay_unset this d :
  wasteDay (pickupDays this) = Js.Int (-1) -> isWasteDay this d = false.
Proof.
  intros H. rewrite (isWasteDay_weekday this (-1) d H).
  pose proof (day_range d). apply Z.eqb_neq. lia.
Qed.

Lemma isRecyclingDay_unset this d :
  recyclingDay (pickupDays this) = Js.Int (-1) -> isRecyclingDay this d = false.
Proof.
  intros H. unfold isRecyclingDay. rewrite H. cbn [Js.eq].
  pose proof (day_range d).
  replace (Moment.day d =? -1) with false by (symmetry; apply Z.eqb_neq; lia).
  apply andb_false_r.
Qed.

(** X6. When none of the three answers is a valid record, [parseData]
    stores -1 in every field, no date has a category and every window of
    [getUpcomingEvents] is empty, whatever its length and with no iteration
    of the loop of [isHeavyDay]. *)
Theorem nothing_scheduled w j r :
  isValidData w = false -> isValidData j = false -> isValidData r = false ->
  parseData w j r = Normal noSchedule /\
  forall table fuel now n,
    (forall d, getCategoriesForDay fuel (mkScheduler noSchedule table) d = Some []) /\
    getUpcomingEvents fuel (mkScheduler noSchedule table) now n = Some [].
Proof.
  intros Hw Hj Hr. split.
  - unfold parseData. now rewrite Hw, Hj, Hr.
  - intros table fuel now n.
    assert (Hcats : forall d,
      getCategoriesForDay fuel (mkScheduler noSchedule table) d = Some []).
    { intros d. unfold getCategoriesForDay, isJunkDay, isTreeDay.
      rewrite isWasteDay_unset, isRecyclingDay_unset by reflexivity.
      rewrite isHeavyDay_no_ordinal by reflexivity.
      now destruct (isEvenMonth d). }
    split; [exact Hcats|].
    unfold getUpcomingEvents.
    rewrite (mapOpt_map _ (fun d => mkEvent d []
               (isPossibleHoliday (mkScheduler noSchedule table) d))).
    + cbn [mbind option_bind]. f_equal.
      induction (map _ (Lodash.range 0 n)) as [|x l IH]; [reflexivity|].
      exact IH.
    + intros d _. unfold groupEvents. now rewrite Hcats.
Qed.

Lemma nothing_scheduled_witness :
  parseData None (Some (mkData None)) (Some (mkData (Some []))) = Normal noSchedule /\
  getUpcomingEvents 0 (mkScheduler noSchedule []) Example.now 60 = Some [].
Proof.
  destruct (nothing_scheduled None (Some (mkData None)) (Some (mkData (Some []))))
    as [H1 H2]; try reflexivity.
  split; [exact H1|]. now destruct (H2 [] 0%nat Example.now 60).
Defined.

(** X7. Waste is collected once a week: the answer of [isWasteDay] is the
    same seven days later, and among any seven consecutive days exactly one
    is a waste day when the weekday stored is one of 0 to 6. *)
Theorem waste_once_a_week this wd d :
  wasteDay (pickupDays this) = Js.Int wd -> 0 <= wd <= 6 ->
  isWasteDay this (add_days 7 d) = isWasteDay this d /\
  exists i, 0 <= i < 7 /\
    forall k, 0 <= k < 7 -> (isWasteDay this (add_days k d) = true <-> k = i).
Proof.
  intros Hw Hwd. split.
  - rewrite !(isWasteDay_weekday this wd) by exact Hw. now rewrite WeekFacts.day_add_week.
  - exists ((wd - Moment.day d) mod 7). split; [zdiv|].
    intros k Hk. rewrite (isWasteDay_weekday this wd) by exact Hw.
    rewrite day_add_days, Z.eqb_eq. unfold Moment.day, WeekDay.
    generalize (civilDay d). intros c. zdiv.
Qed.

Lemma waste_once_a_week_witness :
  isWasteDay Example.scheduler (add_days 7 Example.now)
  = isWasteDay Example.scheduler Example.now /\
  exists i, 0 <= i < 7 /\
    forall k, 0 <= k < 7 ->
      (isWasteDay Example.scheduler (add_days k Example.now) = true <-> k = i).
Proof.
  apply (waste_once_a_week Example.scheduler 3 Example.now); [reflexivity | lia].
Defined.

Section HeavyRule.
Variable this : Scheduler.
Variables N wd : Z.
Hypothesis HN : junkWeekOfMonth (pickupDays this) = Js.Int N.
Hypothesis Hwd : junkDay (pickupDays this) = Js.Int wd.
Hypothesis wd_range : 0 <= wd <= 6.
Hypothesis N_pos : 1 <= N.

(** The date of the month on which the [N]-th [wd] falls. *)
Lemma isHeavyDay_date fuel d : (Z.to_nat (7 * N) <= fuel)%nat ->
  isHeavyDay fuel this d
  = Some (date d =? (wd - WeekDay (MakeDay (year d) (month d) 1)) mod 7 + 7 * (N - 1) + 1).
Proof.
  intros Hfuel.
  rewrite (isHeavyDay_returns this N wd HN Hwd wd_range fuel d N_pos Hfuel).
  f_equal. unfold nthFrom.
  pose proof (civilDay_startOf_month d) as H1.
  pose proof (civilDay_startOf_month_date d) as H2.
  rewrite H1 in H2.
  generalize dependent (MakeDay (year d) (month d) 1). intros s _ H2.
  generalize dependent (civilDay d). intros c H2.
  generalize dependent (date d). intros dt H2.
  generalize ((wd - WeekDay s) mod 7). intros x.
  destruct (Z.eqb_spec (s + x + 7 * (N - 1)) c), (Z.eqb_spec dt (x + 7 * (N - 1) + 1));
    try reflexivity; lia.
Qed.

Lemma day_from_date d :
  Moment.day d = (WeekDay (MakeDay (year d) (month d) 1) + date d - 1) mod 7.
Proof.
  pose proof (civilDay_startOf_month d) as H1.
  pose proof (civilDay_startOf_month_date d) as H2.
  rewrite H1 in H2. unfold Moment.day.
  replace (civilDay d) with (MakeDay (year d) (month d) 1 + (date d - 1)) by lia.
  unfold WeekDay. generalize (MakeDay (year d) (month d) 1), (date d). intros. zdiv.
Qed.

End HeavyRule.

(** X8. With ordinal [N >= 1] and a weekday from 0 to 6, [isHeavyDay]
    returns within [7 * N] iterations, and its answer is true exactly on
    the dates that fall on that weekday and whose day of the month lies in
    the [N]-th block of seven days ([7 * (N - 1) < date <= 7 * N]). *)
Theorem isHeavyDay_closed_form this N wd fuel d :
  junkWeekOfMonth (pickupDays this) = Js.Int N ->
  junkDay (pickupDays this) = Js.Int wd ->
  0 <= wd <= 6 -> 1 <= N -> (Z.to_nat (7 * N) <= fuel)%nat ->
  isHeavyDay fuel this d
  = Some ((Moment.day d =? wd) && (7 * (N - 1) <? date d) && (date d <=? 7 * N)).
Proof.
  intros HN Hwd Hrange HN1 Hfuel.
  rewrite (isHeavyDay_date this N wd HN Hwd Hrange HN1 fuel d Hfuel). f_equal.
  rewrite (day_from_date d).
  pose proof (DateFromDay_range (civilDay d)) as Hd. fold (date d) in Hd.
  generalize dependent (date d). intros dt _.
  pose proof (WeekDay_range (MakeDay (year d) (month d) 1)) as Hs.
  generalize dependent (WeekDay (MakeDay (year d) (month d) 1)). intros s Hs.
  destruct (Z.eqb_spec dt ((wd - s) mod 7 + 7 * (N - 1) + 1)) as [E | E];
    destruct (Z.eqb_spec ((s + dt - 1) mod 7) wd) as [E1 | E1];
    destruct (Z.ltb_spec (7 * (N - 1)) dt) as [E2 | E2];
    destruct (Z.leb_spec dt (7 * N)) as [E3 | E3];
    try reflexivity; exfalso; zdiv.
Qed.

Lemma isHeavyDay_closed_form_witness :
  isHeavyDay 14 Example.scheduler (Example.at_ 2024 0 8 7)
  = Some ((Moment.day (Example.at_ 2024 0 8 7) =? 1)
          && (7 * (2 - 1) <? date (Example.at_ 2024 0 8 7))
          && (date (Example.at_ 2024 0 8 7) <=? 7 * 2)).
Proof.
  apply (isHeavyDay_closed_form Example.scheduler 2 1 14 (Example.at_ 2024 0 8 7));
    try reflexivity; lia.
Defined.

(** X9. With an ordinal from 1 to 4 every month has exactly one heavy
    day, in the ordinal-th block of seven days of the month; with an
    ordinal of 6 or more no date is a heavy day. *)
Theorem heavy_day_once_a_month this N wd fuel :
  junkWeekOfMonth (pickupDays this) = Js.Int N ->
  junkDay (pickupDays this) = Js.Int wd ->
  0 <= wd <= 6 -> 1 <= N -> (Z.to_nat (7 * N) <= fuel)%nat ->
  (N <= 4 -> forall y m, 0 <= m <= 11 ->
     exists dt, 7 * (N - 1) < dt <= 7 * N /\
       (forall d, year d = y -> month d = m ->
          (isHeavyDay fuel this d = Some true <-> date d = dt)) /\
       (exists d, year d = y /\ month d = m /\ date d = dt /\ Moment.day d = wd)) /\
  (6 <= N -> forall d, isHeavyDay fuel this d = Some false).
Proof.
  intros HN Hwd Hrange HN1 Hfuel. split.
  - intros HN4 y m Hm.
    set (dt := (wd - WeekDay (MakeDay y m 1)) mod 7 + 7 * (N - 1) + 1).
    assert (Hdt : 7 * (N - 1) < dt <= 7 * N) by (unfold dt; zdiv).
    exists dt. split; [exact Hdt|]. split.
    + intros d Hy Hmo.
      rewrite (isHeavyDay_date this N wd HN Hwd Hrange HN1 fuel d Hfuel).
      rewrite Hy, Hmo. fold dt. split.
      * intros [= H]. now apply Z.eqb_eq.
      * intros ->. now rewrite Z.eqb_refl.
    + pose proof (DaysInMonth_range y m Hm) as Hlen.
      destruct (fields_MakeDay y m dt Hm ltac:(lia)) as (Fy & Fm & Fd).
      assert (Hc : civilDay (mkMoment (MakeDay y m dt * msPerDay)) = MakeDay y m dt).
      { unfold civilDay, Day. cbn [valueOf]. apply Z.div_mul. discriminate. }
      exists (mkMoment (MakeDay y m dt * msPerDay)).
      assert (Hy : year (mkMoment (MakeDay y m dt * msPerDay)) = y)
        by (unfold year; now rewrite Hc).
      assert (Hmo : month (mkMoment (MakeDay y m dt * msPerDay)) = m)
        by (unfold month; now rewrite Hc).
      assert (Hd : date (mkMoment (MakeDay y m dt * msPerDay)) = dt)
        by (unfold date; now rewrite Hc).
      split; [exact Hy|]. split; [exact Hmo|]. split; [exact Hd|].
      rewrite day_from_date, Hy, Hmo, Hd. unfold dt.
      pose proof (WeekDay_range (MakeDay y m 1)).
      generalize dependent (WeekDay (MakeDay y m 1)). intros. zdiv.
  - intros HN6 d.
    rewrite (isHeavyDay_date this N wd HN Hwd Hrange HN1 fuel d Hfuel).
    f_equal.
    pose proof (DateFromDay_range (civilDay d)) as Hd.
    pose proof (DaysInMonth_range (YearFromDay (civilDay d)) _
                  (MonthFromDay_range (civilDay d))) as Hlen.
    fold (date d) in Hd. apply Z.eqb_neq.
    generalize dependent (WeekDay (MakeDay (year d) (month d) 1)). intros. zdiv.
Qed.

Lemma heavy_day_once_a_month_witness :
  exists dt, 7 * (2 - 1) < dt <= 7 * 2 /\
    (forall d, year d = 2024 -> month d = 0 ->
       (isHeavyDay 14 Example.scheduler d = Some true <-> date d = dt)) /\
    (exists d, year d = 2024 /\ month d = 0 /\ date d = dt /\ Moment.day d = 1).
Proof.
  destruct (heavy_day_once_a_month Example.scheduler 2 1 14) as [H _];
    try reflexivity; try lia.
  apply (H ltac:(lia) 2024 0). lia.
Defined.

End Schedule.

(** ** Recycling from week to week *)

Module RecyclingWeeks.
Import Spec.
Import Ecma EcmaFacts Moment MomentFacts JsString JsStringFacts.
Import HoustonScheduler SchedulerFacts ParseFacts WeekdayParser WeekFacts.
Import Vocabulary TextFacts.

(** Week 1 starts on a Sunday. *)
Lemma weekOneStart_sunday y : WeekDay (weekOneStart y) = 0.
Proof. unfold weekOneStart, WeekDay. generalize (DayFromYear y). intros. zdiv. Qed.

(** A year has 52 or 53 weeks. *)
Lemma weeksInYear_cases y :
  weekOneStart (y + 1) - weekOneStart y = 364 \/
  weekOneStart (y + 1) - weekOneStart y = 371.
Proof.
  pose proof (weekOneStart_sunday y) as H0.
  pose proof (weekOneStart_sunday (y + 1)) as H1.
  pose proof (weekOneStart_range y).
  pose proof (weekOneStart_range (y + 1)).
  pose proof (DayFromYear_succ y).
  pose proof (DaysInYear_cases y).
  unfold WeekDay in *.
  generalize dependent (weekOneStart y). generalize dependent (weekOneStart (y + 1)).
  intros. zdiv.
Qed.

(** A week later the week number is one more, or it is 1 again after week
    52 or 53. *)
Lemma weeks_wrap m :
  weeks (add_days 7 m) = weeks m + 1 \/
  (weeks (add_days 7 m) = 1 /\ 52 <= weeks m <= 53).
Proof.
  rewrite (weeks_spec (add_days 7 m)), (weeks_spec m), civilDay_add_days.
  pose proof (YearFromDay_spec (civilDay m)) as HY. fold (year m) in HY.
  pose proof (YearFromDay_spec (civilDay (add_days 7 m))) as HY7.
  fold (year (add_days 7 m)) in HY7. rewrite civilDay_add_days in HY7.
  pose proof (weeksInYear_cases (year m)) as HW.
  pose proof (weekOneStart_range (year m)) as H0.
  pose proof (weekOneStart_range (year m + 1)) as H1.
  pose proof (weekOneStart_range (year m + 1 + 1)) as H2.
  pose proof (DayFromYear_succ (year m + 1)) as HJ.
  pose proof (DaysInYear_cases (year m + 1)) as HL.
  destruct (year_add_week m) as [Hyr | [Hyr Hnext]]; rewrite Hyr in *.
  - destruct (weekOneStart (year m + 1) <=? civilDay m + 7) eqn:E; bool_to_Z.
    + right. split; [reflexivity|].
      replace (weekOneStart (year m + 1) <=? civilDay m) with false
        by (symmetry; apply Z.leb_gt; lia).
      zdiv.
    + left.
      replace (weekOneStart (year m + 1) <=? civilDay m) with false
        by (symmetry; apply Z.leb_gt; lia).
      zdiv.
  - replace (weekOneStart (year m + 1 + 1) <=? civilDay m + 7) with false
      by (symmetry; apply Z.leb_gt; lia).
    destruct (weekOneStart (year m + 1) <=? civilDay m) eqn:E; bool_to_Z.
    + left. zdiv.
    + right. split; zdiv.
Qed.

Lemma isRecyclingDay_on_weekday this d :
  recyclingDay (pickupDays this) = Js.Int (Moment.day d) ->
  isRecyclingDay this d
  = Bool.eqb (recyclingOnEvenWeeks (pickupDays this)) (weeks d mod 2 =? 0).
Proof.
  intros H. unfold isRecyclingDay. rewrite H. cbn [Js.eq]. rewrite Z.eqb_refl.
  now destruct (recyclingOnEvenWeeks (pickupDays this)), (weeks d mod 2 =? 0).
Qed.

(** X10. On the recycling weekday, the answer of [isRecyclingDay] changes
    from one week to the next as long as the week number goes up by one,
    and after week 52; after a week 53 the numbering restarts at 1 with the
    same parity, and the answer stays the same. *)
Theorem recycling_week_by_week this d :
  recyclingDay (pickupDays this) = Js.Int (Moment.day d) ->
  (weeks (add_days 7 d) = weeks d + 1 /\
   isRecyclingDay this (add_days 7 d) = negb (isRecyclingDay this d)) \/
  (weeks (add_days 7 d) = 1 /\ weeks d = 52 /\
   isRecyclingDay this (add_days 7 d) = negb (isRecyclingDay this d)) \/
  (weeks (add_days 7 d) = 1 /\ weeks d = 53 /\
   isRecyclingDay this (add_days 7 d) = isRecyclingDay this d).
Proof.
  intros Hday.
  assert (Hday7 : recyclingDay (pickupDays this) = Js.Int (Moment.day (add_days 7 d)))
    by (now rewrite day_add_week).
  rewrite (isRecyclingDay_on_weekday this d Hday).
  rewrite (isRecyclingDay_on_weekday this (add_days 7 d) Hday7).
  destruct (weeks_wrap d) as [W | [W Hw]].
  - left. split; [exact W|]. rewrite W.
    assert (P : ((weeks d + 1) mod 2 =? 0) = negb (weeks d mod 2 =? 0)).
    { destruct (weeks d mod 2 =? 0) eqn:E; bool_to_Z; cbn [negb]; bool_to_Z; zdiv. }
    rewrite P. now destruct (recyclingOnEvenWeeks _), (weeks d mod 2 =? 0).
  - right. assert (Hc : weeks d = 52 \/ weeks d = 53) by lia.
    destruct Hc as [E | E]; [left | right];
      (split; [exact W|]); (split; [exact E|]); rewrite W, E;
      now destruct (recyclingOnEvenWeeks _).
Qed.

Lemma recycling_week_by_week_witness :
  weeks (add_days 7 (Example.at_ 2016 11 30 0)) = 1 /\
  weeks (Example.at_ 2016 11 30 0) = 53 /\
  isRecyclingDay (mkScheduler Example.fridayA []) (add_days 7 (Example.at_ 2016 11 30 0))
  = isRecyclingDay (mkScheduler Example.fridayA []) (Example.at_ 2016 11 30 0).
Proof.
  destruct (recycling_week_by_week (mkScheduler Example.fridayA [])
              (Example.at_ 2016 11 30 0) eq_refl)
    as [[W _] | [(_ & W & _) | H]].
  - vm_compute in W. discriminate W.
  - vm_compute in W. discriminate W.
  - exact H.
Defined.

(** What [parseData] stores for a weekday name followed by a dash and a
    letter. *)
Lemma parse_recycling_text spelled i name (letter : string) :
  nth_error weekdays i = Some name -> toLowerCase spelled = toLowerCase name ->
  getDayIndex (head (split (spelled ++ "-" ++ letter) "-")) = Js.Int (Z.of_nat i) /\
  includes (spelled ++ "-" ++ letter) "-A" = includes ("-" ++ letter) "-A".
Proof.
  intros Hi Hlow.
  destruct (parse_dddd_day_name i name spelled Hi Hlow) as [Hparse Halpha].
  split.
  - rewrite split_head.
    + exact Hparse.
    + apply (all_impl isAlpha); [apply isAlpha_not_dash | exact Halpha].
    + right. exists letter. reflexivity.
  - apply Parsing.includes_after_letters; [exact Halpha | reflexivity].
Qed.

(** X11. The recycling texts [<weekday>-A] and [<weekday>-B] give the same
    weekday and complementary weeks: on that weekday a date is a recycling
    day of exactly one of the two schedules, and on the other weekdays of
    neither. *)
Theorem schedules_A_and_B w j rA rB pA pB spelled i name :
  nth_error weekdays i = Some name -> toLowerCase spelled = toLowerCase name ->
  isValidData rA = true -> attribute rA "SERVICE_DAY" = Some (spelled ++ "-A") ->
  isValidData rB = true -> attribute rB "SERVICE_DAY" = Some (spelled ++ "-B") ->
  parseData w j rA = Normal pA -> parseData w j rB = Normal pB ->
  recyclingDay pA = Js.Int (Z.of_nat i) /\ recyclingDay pB = Js.Int (Z.of_nat i) /\
  recyclingOnEvenWeeks pA = false /\ recyclingOnEvenWeeks pB = true /\
  forall tableA tableB d,
    (Moment.day d = Z.of_nat i ->
       isRecyclingDay (mkScheduler pA tableA) d
       = negb (isRecyclingDay (mkScheduler pB tableB) d)) /\
    (Moment.day d <> Z.of_nat i ->
       isRecyclingDay (mkScheduler pA tableA) d = false /\
       isRecyclingDay (mkScheduler pB tableB) d = false).
Proof.
  intros Hi Hlow HvA HsA HvB HsB HpA HpB.
  apply parseData_recycling in HpA, HpB. rewrite HvA in HpA. rewrite HvB in HpB.
  destruct HpA as (sA & EA & DA & WA), HpB as (sB & EB & DB & WB).
  rewrite HsA in EA. injection EA as <-. rewrite HsB in EB. injection EB as <-.
  destruct (parse_recycling_text spelled i name "A" Hi Hlow) as [DA' IA].
  destruct (parse_recycling_text spelled i name "B" Hi Hlow) as [DB' IB].
  change ("-" ++ "A") with "-A" in *. change ("-" ++ "B") with "-B" in *.
  rewrite DA' in DA. rewrite DB' in DB. rewrite IA in WA. rewrite IB in WB.
  change (negb (includes "-A" "-A")) with false in WA.
  change (negb (includes "-B" "-A")) with true in WB.
  split; [exact DA|]. split; [exact DB|]. split; [exact WA|]. split; [exact WB|].
  intros tableA tableB d. unfold isRecyclingDay. cbn [pickupDays].
  rewrite DA, DB, WA, WB. cbn [Js.eq]. split.
  - intros ->. rewrite Z.eqb_refl. now destruct (weeks d mod 2 =? 0).
  - intros Hne. apply Z.eqb_neq in Hne. rewrite Hne. now rewrite !andb_false_r.
Qed.

Lemma schedules_A_and_B_witness :
  recyclingDay Example.fridayA = Js.Int (Z.of_nat 5) /\
  recyclingOnEvenWeeks Example.fridayA = false /\
  isRecyclingDay (mkScheduler Example.fridayA []) (Example.at_ 2024 0 5 0)
  = negb (isRecyclingDay
            (mkScheduler (mkPickupDay (Js.Int (-1)) (Js.Int (-1)) (Js.Int (-1))
                            (Js.Int 5) true) [])
            (Example.at_ 2024 0 5 0)).
Proof.
  destruct (schedules_A_and_B None None
              (Example.response "SERVICE_DAY" "FRIDAY-A")
              (Example.response "SERVICE_DAY" "FRIDAY-B")
              Example.fridayA
              (mkPickupDay (Js.Int (-1)) (Js.Int (-1)) (Js.Int (-1)) (Js.Int 5) true)
              "FRIDAY" 5 "Friday")
    as (H1 & _ & H3 & _ & H5); try reflexivity.
  split; [exact H1|]. split; [exact H3|].
  now apply (H5 [] [] (Example.at_ 2024 0 5 0)).
Defined.

End RecyclingWeeks.

(** ** Windows of days *)

Module Windows.
Import Spec.
Import Ecma EcmaFacts Moment MomentFacts.
Import HoustonScheduler SchedulerFacts.
Import Vocabulary Schedule.

Lemma startOf_day_add_days n m : startOf_day (add_days n m) = add_days n (startOf_day m).
Proof.
  unfold startOf_day. rewrite civilDay_add_days. unfold add_days. cbn [valueOf].
  f_equal. ring.
Qed.

Lemma map_seq_from {A} (f : nat -> A) a b :
  map f (seq a b) = map (fun i => f (a + i)%nat) (seq 0 b).
Proof.
  revert f a. induction b as [|b IH]; intros f a; [reflexivity|].
  cbn [seq map]. rewrite Nat.add_0_r. f_equal.
  rewrite (IH f (S a)), (IH (fun i => f (a + i)%nat) 1%nat).
  apply map_ext. intros i. f_equal. lia.
Qed.

(** The days of a window, then those of the window that follows. *)
Lemma windowDays_app now n k : 0 <= n -> 0 <= k ->
  windowDays now (n + k) = (windowDays now n ++ windowDays (add_days n now) k)%list.
Proof.
  intros Hn Hk. rewrite !Window.windowDays_up by lia.
  rewrite Z2Nat.inj_add, seq_app, map_app by lia. f_equal.
  rewrite map_seq_from. apply map_ext. intros i.
  rewrite startOf_day_add_days, add_days_add_days. f_equal. lia.
Qed.

Lemma mapOpt_app {A B} (f : A -> option B) l1 l2 :
  mapOpt f (l1 ++ l2)%list
  = (a ← mapOpt f l1; b ← mapOpt f l2; Some (a ++ b)%list).
Proof.
  induction l1 as [|x l1 IH]; cbn [mapOpt app].
  - cbn [mbind option_bind]. now destruct (mapOpt f l2).
  - destruct (f x) as [y|]; [|reflexivity]. cbn [mbind option_bind].
    rewrite IH. destruct (mapOpt f l1) as [ys|]; [|reflexivity].
    cbn [mbind option_bind]. now destruct (mapOpt f l2).
Qed.

Lemma getUpcomingEvents_windowDays fuel this now n :
  getUpcomingEvents fuel this now n
  = (events ← mapOpt (groupEvents fuel this) (windowDays now n);
     Some (List.filter hasCategories events)).
Proof. reflexivity. Qed.

(** X12. A window of [n + k] days is the window of [n] days followed by the
    window of [k] days that starts [n] days later, and it is returned
    exactly when both are; the time of day at which the window is asked
    for does not matter. *)
Theorem getUpcomingEvents_split fuel this now n k :
  0 <= n -> 0 <= k ->
  getUpcomingEvents fuel this now (n + k)
  = (a ← getUpcomingEvents fuel this now n;
     b ← getUpcomingEvents fuel this (add_days n now) k;
     Some (a ++ b)%list) /\
  (forall now', civilDay now' = civilDay now ->
     getUpcomingEvents fuel this now' n = getUpcomingEvents fuel this now n).
Proof.
  intros Hn Hk. split.
  - rewrite !getUpcomingEvents_windowDays, windowDays_app, mapOpt_app by lia.
    destruct (mapOpt _ (windowDays now n)) as [e1|]; [|reflexivity].
    cbn [mbind option_bind].
    destruct (mapOpt _ (windowDays (add_days n now) k)) as [e2|]; [|reflexivity].
    cbn [mbind option_bind]. now rewrite List.filter_app.
  - intros now' Hc. unfold getUpcomingEvents, startOf_day. now rewrite Hc.
Qed.

Lemma getUpcomingEvents_split_witness :
  getUpcomingEvents 14 Example.scheduler Example.now (7 + 7)
  = (a ← getUpcomingEvents 14 Example.scheduler Example.now 7;
     b ← getUpcomingEvents 14 Example.scheduler (add_days 7 Example.now) 7;
     Some (a ++ b)%list).
Proof.
  destruct (getUpcomingEvents_split 14 Example.scheduler Example.now 7 7) as [H _];
    [lia | lia | exact H].
Defined.

(** The heavy-pickup loop reads the rules only. *)
Lemma isHeavyDay_loop_table p table table' fuel : forall cur occ,
  isHeavyDay_loop fuel (mkScheduler p table) cur occ
  = isHeavyDay_loop fuel (mkScheduler p table') cur occ.
Proof.
  induction fuel as [|fuel IH]; intros cur occ; cbn [isHeavyDay_loop pickupDays];
    [reflexivity|].
  now rewrite IH.
Qed.

Lemma getCategoriesForDay_table p table table' fuel d :
  getCategoriesForDay fuel (mkScheduler p table) d
  = getCategoriesForDay fuel (mkScheduler p table') d.
Proof.
  unfold getCategoriesForDay, isJunkDay, isTreeDay, isHeavyDay.
  now rewrite (isHeavyDay_loop_table p table table').
Qed.

Lemma filter_map_flagged this events :
  List.filter hasCategories (map (flagged this) events)
  = map (flagged this) (List.filter hasCategories events).
Proof.
  induction events as [|e events IH]; [reflexivity|].
  cbn [map List.filter]. change (hasCategories (flagged this e)) with (hasCategories e).
  destruct (hasCategories e); cbn [map]; now rewrite IH.
Qed.

(** X13. The holiday table decides the flags of the events and nothing
    else: with another table the window is returned for the same rules and
    clocks, with the same days and the same categories, and each flag is
    read from the new table. *)
Theorem holidays_decide_flags_only fuel p table table' now n :
  getUpcomingEvents fuel (mkScheduler p table') now n
  = map (flagged (mkScheduler p table'))
      <$> getUpcomingEvents fuel (mkScheduler p table) now n.
Proof.
  rewrite !getUpcomingEvents_windowDays.
  assert (H : forall l,
    mapOpt (groupEvents fuel (mkScheduler p table')) l
    = map (flagged (mkScheduler p table'))
        <$> mapOpt (groupEvents fuel (mkScheduler p table)) l).
  { induction l as [|d l IH]; [reflexivity|]. cbn [mapOpt]. rewrite IH. clear IH.
    unfold groupEvents. rewrite (getCategoriesForDay_table p table' table).
    destruct (getCategoriesForDay fuel (mkScheduler p table) d) as [cats|];
      [|reflexivity].
    cbn [mbind option_bind].
    destruct (mapOpt _ l) as [ys|]; reflexivity. }
  rewrite H. destruct (mapOpt _ (windowDays now n)) as [events|]; [|reflexivity].
  cbn [mbind option_bind fmap option_fmap option_map]. f_equal.
  apply filter_map_flagged.
Qed.

Lemma WeekDay_add d k : WeekDay (d + k) = (WeekDay d + k) mod 7.
Proof. unfold WeekDay. zdiv. Qed.

Lemma filter_length_app {A} (f : A -> bool) l1 l2 :
  length (List.filter f (l1 ++ l2)%list)
  = (length (List.filter f l1) + length (List.filter f l2))%nat.
Proof. now rewrite List.filter_app, length_app. Qed.

(** Among seven consecutive days one falls on a given weekday. *)
Lemma one_in_seven c wd s : 0 <= wd <= 6 ->
  length (List.filter (fun i => WeekDay (c + Z.of_nat i) =? wd) (seq s 7)) = 1%nat.
Proof.
  intros Hwd. cbn [seq List.filter].
  assert (Hj : forall j, WeekDay (c + Z.of_nat (j + s))
                         = (WeekDay (c + Z.of_nat s) + Z.of_nat j) mod 7).
  { intros j. rewrite <- WeekDay_add. f_equal. lia. }
  pose proof (Hj 0%nat) as H0. pose proof (Hj 1%nat) as H1.
  pose proof (Hj 2%nat) as H2. pose proof (Hj 3%nat) as H3.
  pose proof (Hj 4%nat) as H4. pose proof (Hj 5%nat) as H5.
  pose proof (Hj 6%nat) as H6. cbn [Nat.add] in *.
  rewrite H0, H1, H2, H3, H4, H5, H6. clear Hj H0 H1 H2 H3 H4 H5 H6.
  pose proof (WeekDay_range (c + Z.of_nat s)) as Hr.
  generalize dependent (WeekDay (c + Z.of_nat s)). intros r Hr.
  assert (Hcases : r = 0 \/ r = 1 \/ r = 2 \/ r = 3 \/ r = 4 \/ r = 5 \/ r = 6) by lia.
  assert (Hwds : wd = 0 \/ wd = 1 \/ wd = 2 \/ wd = 3 \/ wd = 4 \/ wd = 5 \/ wd = 6) by lia.
  repeat destruct Hcases as [-> | Hcases]; try subst r;
    repeat destruct Hwds as [-> | Hwds]; try subst wd; reflexivity.
Qed.

Lemma weekday_count c wd : 0 <= wd <= 6 -> forall k s,
  length (List.filter (fun i => WeekDay (c + Z.of_nat i) =? wd) (seq s (7 * k))) = k.
Proof.
  intros Hwd. induction k as [|k IH]; intros s; [reflexivity|].
  replace (7 * S k)%nat with (7 + 7 * k)%nat by lia.
  rewrite seq_app, filter_length_app, one_in_seven, IH by exact Hwd. reflexivity.
Qed.

Lemma weekday_count_le c wd : 0 <= wd <= 6 -> forall r s, (r <= 7)%nat ->
  (length (List.filter (fun i => (WeekDay (c + Z.of_nat i) =? wd)%Z) (seq s r)) <= 1)%nat.
Proof.
  intros Hwd r s Hr. pose proof (one_in_seven c wd s Hwd) as H.
  replace 7%nat with (r + (7 - r))%nat in H by lia.
  rewrite seq_app, filter_length_app in H. lia.
Qed.

Lemma weekday_count_bounds c wd (n : nat) : 0 <= wd <= 6 ->
  (Nat.div n 7 <= length (List.filter (fun i => (WeekDay (c + Z.of_nat i) =? wd)%Z) (seq 0 n))
   <= Nat.div n 7 + 1)%nat /\
  (Nat.modulo n 7 = 0%nat ->
   length (List.filter (fun i => (WeekDay (c + Z.of_nat i) =? wd)%Z) (seq 0 n))
   = Nat.div n 7).
Proof.
  intros Hwd. pose proof (Nat.div_mod_eq n 7) as Hn.
  pose proof (Nat.mod_upper_bound n 7 ltac:(lia)) as Hr.
  set (q := Nat.div n 7) in *. set (r := Nat.modulo n 7) in *.
  assert (Hcount : length (List.filter (fun i => (WeekDay (c + Z.of_nat i) =? wd)%Z) (seq 0 n))
                   = (q + length (List.filter (fun i => (WeekDay (c + Z.of_nat i) =? wd)%Z)
                                    (seq (7 * q) r)))%nat).
  { rewrite Hn at 1. rewrite seq_app, filter_length_app, weekday_count by exact Hwd.
    reflexivity. }
  pose proof (weekday_count_le c wd Hwd r (7 * q)%nat ltac:(lia)) as Hle.
  split; [lia|]. intros Hr0. rewrite Hcount, Hr0. cbn [seq List.filter length]. lia.
Qed.

Lemma filter_filter_impl {A} (f g : A -> bool) l :
  (forall x, f x = true -> g x = true) ->
  List.filter f (List.filter g l) = List.filter f l.
Proof.
  intros H. induction l as [|x l IH]; [reflexivity|]. cbn [List.filter].
  destruct (g x) eqn:Eg; cbn [List.filter]; destruct (f x) eqn:Ef;
    rewrite ?IH; try reflexivity.
  rewrite (H x Ef) in Eg. discriminate.
Qed.

Lemma Forall2_filter_length {A B} (R : A -> B -> Prop) f g l1 l2 :
  Forall2 R l1 l2 -> (forall x y, R x y -> f x = g y) ->
  length (List.filter f l1) = length (List.filter g l2).
Proof.
  intros HF H. induction HF as [|x y l1 l2 Hxy _ IH]; [reflexivity|].
  cbn [List.filter]. rewrite (H x y Hxy). destruct (g y); cbn [length]; now rewrite IH.
Qed.

Lemma filter_map_length {A B} (f : B -> bool) (h : A -> B) l :
  length (List.filter f (map h l)) = length (List.filter (fun x => f (h x)) l).
Proof.
  induction l as [|x l IH]; [reflexivity|]. cbn [map List.filter].
  destruct (f (h x)); cbn [length]; now rewrite IH.
Qed.

Lemma hasTag_In tag e : hasTag tag e = true <-> In tag (categories e).
Proof.
  unfold hasTag. rewrite existsb_exists. split.
  - intros (x & Hin & Heq). apply String.eqb_eq in Heq. now subst.
  - intros Hin. exists tag. split; [exact Hin | apply String.eqb_refl].
Qed.

(** X14. With the waste weekday stored, a window of [n >= 0] days that is
    returned holds one waste event for each full week of the window, and
    at most one more; exactly [n / 7] when [n] is a multiple of seven. *)
Theorem waste_events_per_week fuel this now wd n evs :
  wasteDay (pickupDays this) = Js.Int wd -> 0 <= wd <= 6 -> 0 <= n ->
  getUpcomingEvents fuel this now n = Some evs ->
  n / 7 <= Z.of_nat (length (List.filter (hasTag "waste") evs)) <= n / 7 + 1 /\
  (n mod 7 = 0 -> Z.of_nat (length (List.filter (hasTag "waste") evs)) = n / 7).
Proof.
  intros Hw Hwd Hn H.
  destruct (getUpcomingEvents_inv _ _ _ _ _ H) as (events & HF & ->).
  rewrite filter_filter_impl.
  2:{ intros e He. apply hasTag_In in He. unfold hasCategories.
      destruct (categories e); [destruct He | reflexivity]. }
  rewrite <- (Forall2_filter_length _ (isWasteDay this) _ _ _ HF).
  2:{ intros d e Hg. destruct (groupEvents_inv _ _ _ _ Hg) as (_ & Hc & _).
      destruct (In_categories _ _ _ _ Hc) as (Hwaste & _).
      destruct (hasTag "waste" e) eqn:E2.
      - now apply hasTag_In, Hwaste in E2.
      - destruct (isWasteDay this d); [|reflexivity].
        assert (Hin : In "waste" (categories e)) by now apply Hwaste.
        apply hasTag_In in Hin. congruence. }
  rewrite (Window.windowDays_up now n Hn), filter_map_length.
  erewrite List.filter_ext.
  2:{ intros i. rewrite (isWasteDay_weekday this wd _ Hw), day_add_days,
        civilDay_startOf_day. reflexivity. }
  destruct (weekday_count_bounds (civilDay now) wd (Z.to_nat n) Hwd) as [Hb He].
  assert (Hdiv : Z.of_nat (Nat.div (Z.to_nat n) 7) = n / 7).
  { rewrite Nat2Z.inj_div, Z2Nat.id by lia. reflexivity. }
  assert (Hmod : Z.of_nat (Nat.modulo (Z.to_nat n) 7) = n mod 7).
  { rewrite Nat2Z.inj_mod, Z2Nat.id by lia. reflexivity. }
  split; [lia|]. intros H0. rewrite He by lia. exact Hdiv.
Qed.

Lemma waste_events_per_week_witness :
  14 / 7 <= Z.of_nat (length (List.filter (hasTag "waste") Example.events)) <= 14 / 7 + 1 /\
  Z.of_nat (length (List.filter (hasTag "waste") Example.events)) = 14 / 7.
Proof.
  destruct (waste_events_per_week 14 Example.scheduler Example.now 3 14 Example.events)
    as [H1 H2]; try reflexivity; try lia.
  split; [exact H1 | now apply H2].
Defined.

End Windows.

(** ** The addresses requested *)

Module RequestFacts.
Import Spec.
Import JsString JsStringFacts.
Import Uri Requests Vocabulary TextFacts.

Lemma all_append p a b : all p (a ++ b) = all p a && all p b.
Proof.
  induction a as [|c a IH]; [now rewrite app_empty|].
  rewrite app_String. cbn [all]. now rewrite IH, andb_assoc.
Qed.

Lemma count_append c a b : count c (a ++ b) = (count c a + count c b)%nat.
Proof.
  induction a as [|d a IH]; [now rewrite app_empty|].
  rewrite app_String. cbn [count]. rewrite IH. lia.
Qed.

Lemma all_count p c s : all p s = true -> p c = false -> count c s = 0%nat.
Proof.
  intros Hall Hc. induction s as [|d s IH]; [reflexivity|].
  cbn [all] in Hall. apply andb_true_iff in Hall as [Hd Hall].
  cbn [count]. rewrite (IH Hall).
  destruct (Ascii.eqb_spec c d) as [-> | _]; [congruence | reflexivity].
Qed.

Lemma encodeUnit_safe c : all isUriSafe (encodeUnit c) = true.
Proof. destruct c as [[] [] [] [] [] [] [] []]; vm_compute; reflexivity. Qed.

Lemma encodeURIComponent_all_safe s : all isUriSafe (encodeURIComponent s) = true.
Proof.
  induction s as [|c s IH]; [reflexivity|].
  cbn [encodeURIComponent]. now rewrite all_append, encodeUnit_safe, IH.
Qed.

(** The query of the three requests, with the position encoded in its
    place. *)
Lemma paramStr_shape geometry :
  paramStr geometry
  = "?&geometry=" ++ encodeURIComponent geometry
    ++ "&geometryType=esriGeometryPoint&spatialRel=esriSpatialRelIntersects"
    ++ "&returnGeometry=false&outSR=102100&f=json".
Proof.
  unfold paramStr, params. cbn [fold_left fst snd].
  generalize (encodeURIComponent geometry). intros e.
  rewrite !append_assoc. reflexivity.
Qed.

(** The addresses of the example calls in the comment of the class. *)
Example urls_example :
  urls exampleGeometry
  = [ "http://mycity.houstontx.gov/cohgis/rest/services/SWD/SolidWaste_wm/MapServer/6/query?&geometry=%7B%22y%22%3A%2229.7982722%22%2C%22x%22%3A%22-95.3736702%22%2C%22spatialReference%22%3A%7B%22wkid%22%3A4326%7D%7D&geometryType=esriGeometryPoint&spatialRel=esriSpatialRelIntersects&returnGeometry=false&outSR=102100&f=json&outFields=DAY";
      "http://mycity.houstontx.gov/cohgis/rest/services/SWD/SolidWaste_wm/MapServer/5/query?&geometry=%7B%22y%22%3A%2229.7982722%22%2C%22x%22%3A%22-95.3736702%22%2C%22spatialReference%22%3A%7B%22wkid%22%3A4326%7D%7D&geometryType=esriGeometryPoint&spatialRel=esriSpatialRelIntersects&returnGeometry=false&outSR=102100&f=json&outFields=SERVICE_DA";
      "http://mycity.houstontx.gov/cohgis/rest/services/SWD/SolidWaste_wm/MapServer/4/query?&geometry=%7B%22y%22%3A%2229.7982722%22%2C%22x%22%3A%22-95.3736702%22%2C%22spatialReference%22%3A%7B%22wkid%22%3A4326%7D%7D&geometryType=esriGeometryPoint&spatialRel=esriSpatialRelIntersects&returnGeometry=false&outSR=102100&f=json&outFields=SERVICE_DAY" ].
Proof. vm_compute. reflexivity. Qed.

(** X15. [encodeURIComponent] writes unreserved characters and percent
    signs only, so a character that is neither, such as [&], [=], [?], [#],
    [/] or a space, never occurs in its result. *)
Theorem encodeURIComponent_safe s :
  all isUriSafe (encodeURIComponent s) = true /\
  (forall c, isUriSafe c = false -> count c (encodeURIComponent s) = 0%nat) /\
  count "&" (encodeURIComponent s) = 0%nat /\
  count "=" (encodeURIComponent s) = 0%nat /\
  count "?" (encodeURIComponent s) = 0%nat /\
  count "#" (encodeURIComponent s) = 0%nat /\
  count "/" (encodeURIComponent s) = 0%nat /\
  count " " (encodeURIComponent s) = 0%nat.
Proof.
  pose proof (encodeURIComponent_all_safe s) as Hall.
  assert (Hc : forall c, isUriSafe c = false -> count c (encodeURIComponent s) = 0%nat)
    by (intros c; now apply all_count).
  split; [exact Hall|]. split; [exact Hc|].
  split; [|split; [|split; [|split; [|split]]]]; now apply Hc.
Qed.

(** X16. Whatever the text of the position, each of the three addresses
    requested is the map server's address of its map (6, 5, 4 in this
    order) followed by a query with one question mark and seven
    parameters, each introduced by [&] and holding one [=], the position
    encoded as the first and the field of the map as the last: the
    position cannot add or end a parameter. *)
Theorem urls_parameters geometry :
  length (urls geometry) = 3%nat /\
  Forall (fun url => count "&" url = 7%nat /\ count "=" url = 7%nat /\
                     count "?" url = 1%nat /\ count "#" url = 0%nat /\
                     startsWith url mapServer = true)
    (urls geometry) /\
  urls geometry
  = map (fun request =>
           mapServer ++ fst request ++ "/query?&geometry="
           ++ encodeURIComponent geometry
           ++ "&geometryType=esriGeometryPoint&spatialRel=esriSpatialRelIntersects"
           ++ "&returnGeometry=false&outSR=102100&f=json&outFields="
           ++ snd request)
      [("6", "DAY"); ("5", "SERVICE_DA"); ("4", "SERVICE_DAY")].
Proof.
  pose proof (encodeURIComponent_all_safe geometry) as Hall.
  assert (He : forall c, isUriSafe c = false ->
                 count c (encodeURIComponent geometry) = 0%nat)
    by (intros c; now apply all_count).
  clear Hall. unfold urls. cbn [map mapNumbers]. rewrite paramStr_shape.
  generalize dependent (encodeURIComponent geometry). intros e He.
  split; [reflexivity|]. split.
  - repeat constructor;
      try (rewrite !count_append, He by reflexivity; reflexivity);
      apply startsWith_iff; eexists; reflexivity.
  - cbn [map fst snd]. rewrite !append_assoc. reflexivity.
Qed.

End RequestFacts.

(** ** The route [/upcoming] *)

Module Route.
Import Spec.
Import Ecma EcmaFacts Moment MomentFacts MomentFormat.
Import HoustonScheduler SchedulerFacts ParseFacts App.
Import Vocabulary FormatFacts Records.

Lemma NoDup_map_coarser {A B C} (f : A -> B) (g : A -> C) l :
  (forall x y, g x = g y -> f x = f y) ->
  List.NoDup (map f l) -> List.NoDup (map g l).
Proof.
  intros H. induction l as [|x l IH]; cbn [map]; intros Hl; [constructor|].
  inversion Hl as [|? ? Hnotin Hrest]; subst. constructor; [|now apply IH].
  intros Hin. apply Hnotin. apply in_map_iff in Hin as (y & Hy & Hyl).
  apply in_map_iff. exists y. split; [|exact Hyl]. now apply H.
Qed.

Lemma NoDup_map_filter {A B} (f : A -> B) p l :
  List.NoDup (map f l) -> List.NoDup (map f (List.filter p l)).
Proof.
  induction l as [|x l IH]; cbn [map List.filter]; intros Hl; [constructor|].
  inversion Hl as [|? ? Hnotin Hrest]; subst.
  destruct (p x); [|now apply IH]. cbn [map]. constructor; [|now apply IH].
  intros Hin. apply Hnotin. apply in_map_iff in Hin as (y & Hy & Hyl).
  apply filter_In in Hyl as [Hyl _]. apply in_map_iff. now exists y.
Qed.

Lemma NoDup_map_injective {A B} (g : A -> B) l :
  (forall x y, g x = g y -> x = y) -> List.NoDup l -> List.NoDup (map g l).
Proof.
  intros H Hl. apply (NoDup_map_coarser (fun x => x)); [exact H|].
  now rewrite map_id.
Qed.

Lemma NoDup_range n : List.NoDup (Lodash.range 0 n).
Proof.
  destruct (Z_lt_le_dec n 0) as [Hn | Hn].
  - rewrite (range_down n Hn). apply NoDup_map_injective; [|apply seq_NoDup].
    intros a b Hab. lia.
  - rewrite (range_up n Hn). apply NoDup_map_injective; [|apply seq_NoDup].
    intros a b Hab. lia.
Qed.

(** The days of a window are distinct calendar days, whatever its
    direction. *)
Lemma NoDup_windowDays now n : List.NoDup (map civilDay (windowDays now n)).
Proof.
  unfold windowDays. rewrite map_map.
  apply NoDup_map_injective; [|apply NoDup_range].
  intros a b. rewrite !civilDay_add_days. lia.
Qed.

Lemma NoDup_event_days fuel this now n evs :
  getUpcomingEvents fuel this now n = Some evs ->
  List.NoDup (map (fun e => civilDay (day e)) evs).
Proof.
  intros H. destruct (getUpcomingEvents_inv _ _ _ _ _ H) as (events & HF & ->).
  apply NoDup_map_filter. rewrite <- (map_map day civilDay).
  rewrite (Window.Forall2_map_day _ _ _ _ HF). apply NoDup_windowDays.
Qed.

Lemma upcoming_Body_inv fuel table now answers n evs p :
  upcoming fuel table now answers n = Some (Body evs p) ->
  exists w j r events,
    answers = Some (w, j, r) /\ parseData w j r = Normal p /\
    getUpcomingEvents fuel (mkScheduler p table) now n = Some events /\
    evs = jsonEvents events.
Proof.
  unfold upcoming. destruct answers as [[[w j] r]|]; [|discriminate].
  destruct (parseData w j r) as [p'|] eqn:Hp; [|discriminate].
  destruct (getUpcomingEvents fuel (mkScheduler p' table) now n) as [events|] eqn:He;
    [|discriminate].
  cbn [mbind option_bind]. intros [= <- <-]. now exists w, j, r, events.
Qed.

(** X17. In a reply of the route the events are written with distinct
    [YYYY-MM-DD] texts, one for each event of [getUpcomingEvents] and in
    the same order, every event has a category, and [schedule] is what
    [parseData] stored. *)
Theorem upcoming_days_distinct fuel table now answers n evs p :
  upcoming fuel table now answers n = Some (Body evs p) ->
  List.NoDup (map jsonDay evs) /\
  Forall (fun e => jsonCategories e <> []) evs /\
  exists w j r events,
    answers = Some (w, j, r) /\ parseData w j r = Normal p /\
    getUpcomingEvents fuel (mkScheduler p table) now n = Some events /\
    map jsonDay evs = map (fun e => format_YYYY_MM_DD (day e)) events /\
    map jsonCategories evs = map categories events /\
    map jsonPossibleHoliday evs = map possibleHoliday events.
Proof.
  intros H. destruct (upcoming_Body_inv _ _ _ _ _ _ _ H)
    as (w & j & r & events & Ha & Hp & He & ->).
  unfold jsonEvents. rewrite !map_map. cbn [jsonDay jsonCategories jsonPossibleHoliday].
  split; [|split].
  - apply (NoDup_map_coarser (fun e => civilDay (day e))).
    + intros x y Hxy. now apply (format_civilDay (day x) (day y)).
    + exact (NoDup_event_days _ _ _ _ _ He).
  - apply List.Forall_forall. intros e Hin.
    apply in_map_iff in Hin as (e' & <- & Hin). cbn [jsonCategories].
    now destruct (event_origin _ _ _ _ _ _ He Hin) as (_ & _ & _ & Hne).
  - exists w, j, r, events. repeat (split; [assumption || reflexivity|]).
    reflexivity.
Qed.

Lemma upcoming_days_distinct_witness :
  List.NoDup (map jsonDay (jsonEvents Example.events)) /\
  Forall (fun e => jsonCategories e <> []) (jsonEvents Example.events).
Proof.
  destruct (upcoming_days_distinct 14 (holidays Example.scheduler) Example.now
              (Some (Example.response "DAY" "WEDNESDAY",
                     Example.response "SERVICE_DA" "2nd MONDAY",
                     Example.response "SERVICE_DAY" "FRIDAY-B"))
              14 (jsonEvents Example.events) Example.rules)
    as (H1 & H2 & _); [vm_compute; reflexivity|].
  split; [exact H1 | exact H2].
Defined.



End Route.
